(** * jitsi-slack: slash-command handlers and meeting URL derivation

    A shallow embedding of [handlers.go], the meeting generator and
    [slack_messages.go], with the properties of the request validation,
    command routing, mention extraction, URL construction and invite
    dispatch stated over it. *)

From Stdlib Require Import String Ascii List Bool Arith Lia.
From stdpp Require Import base option strings gmap.
Import ListNotations.
Local Open Scope string_scope.
Local Open Scope list_scope.

(** ** Regular expressions

    The four package-level patterns only use literals, the classes [\s],
    [\S] and [[^...]], the quantifiers [?] and [+] on a single atom, one
    capture group and the anchor [^].  The matcher below is the
    leftmost-first (greedy, backtracking) semantics of Go's [regexp] on that
    fragment, over bytes: every delimiter of the patterns is ASCII, so the
    byte-level and the rune-level readings agree. *)

Module Regexp.

Inductive atom : Type :=
  | Lit (c : ascii)
  | NotIn (cs : list ascii)
  | Space
  | NonSpace.

Inductive item : Type :=
  | One (a : atom)
  | Opt (a : atom)
  | Plus (a : atom)
  | GroupOpen
  | GroupClose.

Record t : Type := MustCompile { anchored : bool; items : list item }.

Definition eqb_ascii (a b : ascii) : bool := Ascii.eqb a b.

(** [\s] is [[\t\n\f\r ]]. *)
Definition is_space (c : ascii) : bool :=
  let n := nat_of_ascii c in
  (Nat.eqb n 9 || Nat.eqb n 10 || Nat.eqb n 12 || Nat.eqb n 13 || Nat.eqb n 32)%bool.

Definition atom_ok (a : atom) (c : ascii) : bool :=
  match a with
  | Lit d => eqb_ascii d c
  | NotIn cs => negb (existsb (eqb_ascii c) cs)
  | Space => is_space c
  | NonSpace => negb (is_space c)
  end.

(** State of the single capture group while a match is being built. *)
Inductive group : Type :=
  | Unopened
  | Capturing (acc : string)
  | Closed (g : string).

Definition snoc (s : string) (c : ascii) : string := String.append s (String c "").

Definition push (g : group) (c : ascii) : group :=
  match g with
  | Capturing acc => Capturing (snoc acc c)
  | _ => g
  end.

Definition close (g : group) : group :=
  match g with
  | Capturing acc => Closed acc
  | _ => g
  end.

Definition group_text (g : group) : string :=
  match g with
  | Closed s => s
  | _ => ""
  end.

(** A match: the whole matched text, the text of group 1, and what is left
    of the input after the match. *)
Record submatch : Type := Submatch { whole : string; group1 : string; rest : string }.

(** [run its s w g]: match the items [its] at the head of [s], having
    already consumed [w] with group state [g]. *)
Fixpoint run (its : list item) (s w : string) (g : group) : option submatch :=
  match its with
  | [] => Some (Submatch w (group_text g) s)
  | GroupOpen :: r => run r s w (Capturing "")
  | GroupClose :: r => run r s w (close g)
  | One a :: r =>
      match s with
      | String c s' => if atom_ok a c then run r s' (snoc w c) (push g c) else None
      | EmptyString => None
      end
  | Opt a :: r =>
      match s with
      | String c s' =>
          if atom_ok a c then
            match run r s' (snoc w c) (push g c) with
            | Some m => Some m
            | None => run r s w g
            end
          else run r s w g
      | EmptyString => run r s w g
      end
  | Plus a :: r =>
      (fix plus (s w : string) (g : group) {struct s} : option submatch :=
         match s with
         | String c s' =>
             if atom_ok a c then
               match plus s' (snoc w c) (push g c) with
               | Some m => Some m
               | None => run r s' (snoc w c) (push g c)
               end
             else None
         | EmptyString => None
         end) s w g
  end.

Definition matchAt (re : t) (s : string) : option submatch :=
  run (items re) s "" Unopened.

(** Leftmost match at or after the head of [s]. *)
Fixpoint search (re : t) (s : string) : option submatch :=
  match matchAt re s with
  | Some m => Some m
  | None =>
      match s with
      | String _ s' => search re s'
      | EmptyString => None
      end
  end.

Definition found (m : option submatch) : bool :=
  match m with
  | Some _ => true
  | None => false
  end.

(** An anchored pattern ([^...]) can only match at the start of the text. *)
Definition MatchString (re : t) (s : string) : bool :=
  if anchored re then found (matchAt re s) else found (search re s).

(** Successive non-overlapping matches, left to right.  [skip] counts the
    bytes of the previous match that are still to be stepped over. *)
Fixpoint scan (re : t) (skip : nat) (s : string) : list submatch :=
  match skip with
  | S k =>
      match s with
      | String _ s' => scan re k s'
      | EmptyString => []
      end
  | O =>
      match s with
      | String _ s' =>
          match matchAt re s with
          | Some m => m :: scan re (String.length (whole m) - 1) s'
          | None => scan re 0 s'
          end
      | EmptyString =>
          match matchAt re s with
          | Some m => [m]
          | None => []
          end
      end
  end.

(** [FindAllStringSubmatch(s, -1)]: each match as the slice
    [[whole; group 1]]; [nil] when there is none. *)
Definition FindAllStringSubmatch (re : t) (s : string) : list (list string) :=
  let ms := if anchored re
            then match matchAt re s with Some m => [m] | None => [] end
            else scan re 0 s in
  map (fun m => [whole m; group1 m]) ms.

End Regexp.

(** The literal bytes of [s], one item each. *)
Fixpoint lits (s : string) : list Regexp.item :=
  match s with
  | String c s' => Regexp.One (Regexp.Lit c) :: lits s'
  | EmptyString => []
  end.

(** ** Package-level constants of [handlers.go] *)

Definition errInvalidAuth : string := "invalid_auth".
Definition errInactiveAccount : string := "account_inactive".
Definition errMissingAuthToken : string := "not_authed".

(** [<@([^>|]+)] *)
Definition atMentionRE : Regexp.t :=
  Regexp.MustCompile false
    (lits "<@" ++
     [Regexp.GroupOpen; Regexp.Plus (Regexp.NotIn [">"%char; "|"%char]); Regexp.GroupClose]).

(** [^server] *)
Definition serverCmdRE : Regexp.t := Regexp.MustCompile true (lits "server").

(** [^server\s+(<https?:\/\/\S+>)] *)
Definition serverConfigRE : Regexp.t :=
  Regexp.MustCompile true
    (lits "server" ++ [Regexp.Plus Regexp.Space; Regexp.GroupOpen] ++
     lits "<http" ++ [Regexp.Opt (Regexp.Lit "s"%char)] ++ lits "://" ++
     [Regexp.Plus Regexp.NonSpace; Regexp.One (Regexp.Lit ">"%char); Regexp.GroupClose]).

(** [^help] *)
Definition helpCmdRE : Regexp.t := Regexp.MustCompile true (lits "help").

(** ** The parts of Go's [strings] and [fmt] the handlers use *)

(** [strings.Split(s, sep)] for a non-empty [sep]: [cur] is the piece being
    read, [skip] the bytes of a separator still to be stepped over. *)
Fixpoint split_go (sep : string) (skip : nat) (s cur : string) : list string :=
  match s with
  | EmptyString => [cur]
  | String c s' =>
      match skip with
      | S k => split_go sep k s' cur
      | O =>
          if String.prefix sep s
          then cur :: split_go sep (String.length sep - 1) s' ""
          else split_go sep 0 s' (Regexp.snoc cur c)
      end
  end.

Definition strings_Split (s sep : string) : list string := split_go sep 0 s "".

Definition in_cutset (cutset : string) (c : ascii) : bool :=
  existsb (Ascii.eqb c) (list_ascii_of_string cutset).

Fixpoint trim_left (cutset s : string) : string :=
  match s with
  | String c s' => if in_cutset cutset c then trim_left cutset s' else s
  | EmptyString => ""
  end.

(** Drops the trailing bytes of [s] that are in [cutset]. *)
Fixpoint trim_right (cutset s : string) : string :=
  match s with
  | String c s' =>
      match trim_right cutset s' with
      | EmptyString => if in_cutset cutset c then "" else String c ""
      | t => String c t
      end
  | EmptyString => ""
  end.

(** [strings.Trim(s, cutset)] for an ASCII [cutset]. *)
Definition strings_Trim (s cutset : string) : string :=
  trim_right cutset (trim_left cutset s).

(** [fmt.Sprintf] for formats whose only verb is [%s]; a verb with no
    operand left prints as [%!s(MISSING)]. *)
Fixpoint Sprintf (format : string) (args : list string) : string :=
  match format with
  | String "%" (String "s" f') =>
      match args with
      | a :: args' => String.append a (Sprintf f' args')
      | [] => String.append "%!s(MISSING)" (Sprintf f' [])
      end
  | String c f' => String c (Sprintf f' args)
  | EmptyString => ""
  end.

(** ** Message templates of [slack_messages.go]

    The templates are Go raw strings, copied byte for byte except that the
    double quote is written as a backquote (which a raw string cannot
    contain) and restored by [raw]. *)

Definition backquote : ascii := ascii_of_nat 96.
Definition doublequote : ascii := ascii_of_nat 34.

Fixpoint raw (s : string) : string :=
  match s with
  | String c s' => String (if Ascii.eqb c backquote then doublequote else c) (raw s')
  | EmptyString => ""
  end.

Definition roomTemplate : string := raw "{
		`response_type`:`in_channel`,
		`attachments`:[{
			`fallback`:`Meeting started on %s`,
			`title`:`Meeting started on %s`,
			`color`:`#3AA3E3`,
			`attachment_type`:`default`,
			`actions`:[{
				`name`:`join`,
				`text`:`Join`,
				`type`:`button`,
				`url`:`%s`,
				`style`:`primary`
			}]
		}]
	}".

Definition userTemplate : string := raw "{
		`response_type`:`ephemeral`,
		`attachments`:[{
			`fallback`:`Invitations have been sent for your meeting on %s`,
			`title`:`Invitations have been sent for your meeting on %s`,
			`color`:`#3AA3E3`,
			`attachment_type`:`default`,
			`actions`:[{
				`name`:`join`,
				`text`:`Join`,
				`type`:`button`,
				`url`:`%s`,
				`style`:`primary`
			}]
		}]
	}".

Definition helpMessage : string := raw "{
		`response_type`:`ephemeral`,
		`text`:`How to use /jitsi...`,
		`attachments`:[{
			`text`:`To share a conference link with the channel, use '/jitsi'. Now everyone can join.\nTo share a conference link with users, use 'jitsi @bob @alice'. Now you can meet with Bob and Alice.`
		}]
	}".

Definition installMessage : string := raw "{
		`response_type`:`ephemeral`,
		`text`:`Please install the jitsi meet app to integrate with your slack workspace.`,
		`attachments`:[{`text`:`%s`}]
	}".

(** ** Data model *)

(** A Go [error] is observed only through [err != nil] and [err.Error()]:
    it is modelled by its message. *)
Definition error : Type := string.

(** [net/http] header and form values: [map[string][]string]. *)
Definition Values : Type := gmap string (list string).

(** [Header.Get] and [PostFormValue]: the first value of the key, or the
    empty string when there is none. *)
Definition Values_Get (v : Values) (key : string) : string :=
  match v !! key with
  | Some (x :: _) => x
  | _ => ""
  end.

(** The workspace's server settings, as [MeetingGenerator.New] reads them. *)
Record ServerCfg : Type := {
  Server : string;
  TenantScopedURLs : bool;
  AuthenticatedURLSupport : bool
}.

(** The override [configureServer] stores: [ServerCfgData{TeamID, Server}]. *)
Record ServerCfgData : Type := {
  cfgTeamID : string;
  cfgServer : string
}.

Record JWTInput : Type := {
  TenantID : string;
  TenantName : string;
  RoomClaim : string;
  UserID : string;
  UserName : string;
  AvatarURL : string
}.

(** The fields of [slack.User] the handlers read: [ID], [Name] and
    [Profile.Image192]. *)
Record UserInfo : Type := {
  ID : string;
  Name : string;
  Image192 : string
}.

Record AttachmentAction : Type := {
  actName : string;
  actText : string;
  actType : string;
  actStyle : string;
  actURL : string
}.

Record Attachment : Type := {
  Fallback : string;
  Title : string;
  Color : string;
  Actions : list AttachmentAction
}.

Record PostMessageParameters : Type := { Attachments : list Attachment }.

(** An inbound request: its headers, what reading its body gives, and the
    form [ParseForm] has filled in. *)
Record Request : Type := {
  Header : Values;
  Body : string + error;
  PostForm : Values
}.

Definition PostFormValue (r : Request) (key : string) : string :=
  Values_Get (PostForm r) key.

Definition StatusOK : nat := 200.
Definition StatusUnauthorized : nat := 401.
Definition StatusInternalServerError : nat := 500.

(** [http.ResponseWriter]: the header map, the status line once written,
    and the body written so far. *)
Record ResponseWriter : Type := {
  header : Values;
  status : option nat;
  body : string
}.

Definition emptyResponse : ResponseWriter :=
  {| header := ∅; status := None; body := "" |}.

(** [w.Header().Set(key, value)] *)
Definition setHeader (key value : string) (w : ResponseWriter) : ResponseWriter :=
  {| header := <[key := [value]]> (header w); status := status w; body := body w |}.

(** [w.WriteHeader(code)]: only the first status written counts. *)
Definition writeHeader (code : nat) (w : ResponseWriter) : ResponseWriter :=
  {| header := header w;
     status := match status w with
               | Some c => Some c
               | None => Some code
               end;
     body := body w |}.

(** [w.Write(b)]: writes the status 200 first when none was written. *)
Definition write (b : string) (w : ResponseWriter) : ResponseWriter :=
  {| header := header w;
     status := match status w with
               | Some c => Some c
               | None => Some StatusOK
               end;
     body := String.append (body w) b |}.

(** ** Collaborators

    Everything the handlers reach outside this package: the stores, the
    token signer, the Slack client, and the functions and constants of the
    package that live in other files.  Each stateful collaborator is a
    transition on an abstract world [W]. *)
Record Env : Type := {
  W : Type;
  RequestTimestampHeader : string;
  RequestSignatureHeader : string;
  ValidRequest : string -> string -> string -> string -> bool;
  ParseForm : Request -> Values + error;
  strings_ToLower : string -> string;
  RandomName : W -> string * W;
  ServerConfigReader_Get : string -> W -> (ServerCfg + error) * W;
  ServerConfigWriter_Store : ServerCfgData -> W -> option error * W;
  ServerConfigWriter_Remove : string -> W -> option error * W;
  CreateJWT : JWTInput -> W -> (string + error) * W;
  GetFirstBotTokenForTeam : string -> W -> (string + error) * W;
  GetUserInfo : string -> string -> W -> (UserInfo + error) * W;
  OpenConversation : string -> list string -> W -> (string + error) * W;
  PostMessage : string -> string -> string -> PostMessageParameters -> W -> option error * W
}.

(** What a handler does that can be observed from outside, in order. *)
Inductive Event : Type :=
  | EvReadBody
  | EvValidRequest (secret body ts sig : string)
  | EvParseForm
  | EvRandomName
  | EvServerConfigGet (teamID : string)
  | EvServerConfigStore (d : ServerCfgData)
  | EvServerConfigRemove (teamID : string)
  | EvCreateJWT (i : JWTInput)
  | EvGetFirstBotTokenForTeam (teamID : string)
  | EvGetUserInfo (token userID : string)
  | EvOpenConversation (token : string) (users : list string)
  | EvPostMessage (token channel : string) (p : PostMessageParameters)
  | EvLogError (err : error) (msg : string).

(** ** Handlers *)

Section Handlers.

Variable E : Env.

(** The state a handler runs in: the collaborators' world, the response
    being written, and the events so far (oldest first). *)
Record St : Type := {
  world : W E;
  resp : ResponseWriter;
  trace : list Event
}.

(** A handler step either returns, or panics (a Go run-time panic unwinds
    the whole handler). *)
Inductive Res (A : Type) : Type :=
  | Ret (a : A) (s : St)
  | Panic (msg : string) (s : St).
Arguments Ret {A} a s.
Arguments Panic {A} msg s.

Definition M (A : Type) : Type := St -> Res A.

Definition ret {A} (a : A) : M A := fun s => Ret a s.

Definition bind {A B} (m : M A) (k : A -> M B) : M B :=
  fun s =>
    match m s with
    | Ret a s' => k a s'
    | Panic msg s' => Panic msg s'
    end.

Notation "'let*' x ':=' m 'in' k" := (bind m (fun x => k))
  (at level 10, x pattern, m at level 100, k at level 200, only parsing).
Notation "m ';;' k" := (bind m (fun _ => k))
  (at level 100, k at level 200, right associativity, only parsing).

Definition panic {A} (msg : string) : M A := fun s => Panic msg s.

Definition emit (ev : Event) : M unit :=
  fun s => Ret tt {| world := world s; resp := resp s; trace := trace s ++ [ev] |}.

(** A call to a collaborator: recorded, then run on the world. *)
Definition call {A} (ev : Event) (f : W E -> A * W E) : M A :=
  emit ev ;;
  fun s =>
    let '(a, w') := f (world s) in
    Ret a {| world := w'; resp := resp s; trace := trace s |}.

Definition respond (f : ResponseWriter -> ResponseWriter) : M unit :=
  fun s => Ret tt {| world := world s; resp := f (resp s); trace := trace s |}.

Definition Header_Set (key value : string) : M unit := respond (setHeader key value).
Definition WriteHeader (code : nat) : M unit := respond (writeHeader code).
Definition Write (b : string) : M unit := respond (write b).

(** [hlog.FromRequest(r).Error().Err(err).Msg(msg)] *)
Definition logError (err : error) (msg : string) : M unit :=
  emit (EvLogError err msg).

(** [l[i]]: a slice index out of range panics. *)
Definition index (l : list string) (i : nat) : M string :=
  match l !! i with
  | Some x => ret x
  | None => panic "index out of range"
  end.

Definition handleRequestValidation (r : Request) (SlackSigningSecret : string) : M bool :=
  let ts := Values_Get (Header r) (RequestTimestampHeader E) in
  let sig := Values_Get (Header r) (RequestSignatureHeader E) in
  if (String.eqb ts "" || String.eqb sig "")%bool then
    WriteHeader StatusUnauthorized ;;
    ret false
  else
    emit EvReadBody ;;
    match Body r with
    | inr _ =>
        WriteHeader StatusInternalServerError ;;
        ret false
    | inl body =>
        emit (EvValidRequest SlackSigningSecret body ts sig) ;;
        if negb (ValidRequest E SlackSigningSecret body ts sig) then
          WriteHeader StatusUnauthorized ;;
          ret false
        else ret true
    end.

Definition help : M unit :=
  Header_Set "Content-type" "application/json" ;;
  WriteHeader StatusOK ;;
  Write helpMessage.

Definition install (sharableURL : string) : M unit :=
  let installMsg := Sprintf installMessage [sharableURL] in
  Header_Set "Content-type" "application/json" ;;
  WriteHeader StatusOK ;;
  Write installMsg.

(** The stores, the token reader and the meeting generator of the Go struct
    are the collaborators of [E]; the two strings are its own. *)
Record SlashCommandHandlers : Type := {
  SlackSigningSecret : string;
  SharableURL : string
}.

(** *** Meetings *)

Record Meeting : Type := {
  RoomName : string;
  URL : string;
  Host : string;
  AuthenticatedURL : string -> string -> string -> M (string * option error)
}.

(** [Meeting{}]: the zero value, whose function field is nil. *)
Definition zeroMeeting : Meeting :=
  {| RoomName := ""; URL := ""; Host := "";
     AuthenticatedURL := fun _ _ _ => panic "nil function call" |}.

Definition MeetingGenerator_New (teamID teamName : string) : M (Meeting * option error) :=
  let* roomName := call EvRandomName (RandomName E) in
  let* srv := call (EvServerConfigGet teamID) (ServerConfigReader_Get E teamID) in
  match srv with
  | inr err => ret (zeroMeeting, Some err)
  | inl srv =>
      let url :=
        if TenantScopedURLs srv
        then Sprintf "%s/%s/%s" [Server srv; strings_ToLower E teamName; roomName]
        else Sprintf "%s/%s" [Server srv; roomName] in
      let authenticatedURL :=
        if AuthenticatedURLSupport srv then
          fun userID userName avatarURL =>
            let* jwt := call
              (EvCreateJWT {| TenantID := teamID; TenantName := teamName;
                              RoomClaim := roomName; UserID := userID;
                              UserName := userName; AvatarURL := avatarURL |})
              (CreateJWT E {| TenantID := teamID; TenantName := teamName;
                              RoomClaim := roomName; UserID := userID;
                              UserName := userName; AvatarURL := avatarURL |}) in
            match jwt with
            | inr err => ret ("", Some err)
            | inl jwt => ret (Sprintf "%s?jwt=%s" [url; jwt], None)
            end
        else
          fun _ _ _ => ret (url, None) in
      ret ({| RoomName := roomName; URL := url; Host := Server srv;
              AuthenticatedURL := authenticatedURL |}, None)
  end.

(** *** Messages to Slack ([slack_messages.go]) *)

Definition sendPersonalizedInvite (token hostID userID : string) (meeting : Meeting)
  : M (option error) :=
  let* userInfo := call (EvGetUserInfo token userID) (GetUserInfo E token userID) in
  match userInfo with
  | inr err => ret (Some err)
  | inl userInfo =>
      let msg := Sprintf "<@%s> would like you to join a meeting on %s"
                   [hostID; Host meeting] in
      let* (meetingURL, err) :=
        AuthenticatedURL meeting (ID userInfo) (Name userInfo) (Image192 userInfo) in
      match err with
      | Some err => ret (Some err)
      | None =>
          let params :=
            {| Attachments :=
                 [{| Fallback := msg; Title := msg; Color := "#3AA3E3";
                     Actions := [{| actName := "join"; actText := "Join";
                                    actType := "button"; actStyle := "primary";
                                    actURL := meetingURL |}] |}] |} in
          let* channel := call (EvOpenConversation token [userID])
                            (OpenConversation E token [userID]) in
          match channel with
          | inr err => ret (Some err)
          | inl channelID =>
              call (EvPostMessage token channelID params)
                (PostMessage E token channelID "" params)
          end
      end
  end.

Definition joinPersonalMeetingMsg (token userID : string) (meeting : Meeting)
  : M (string * option error) :=
  let* userInfo := call (EvGetUserInfo token userID) (GetUserInfo E token userID) in
  match userInfo with
  | inr err => ret ("", Some err)
  | inl userInfo =>
      let* (meetingURL, err) :=
        AuthenticatedURL meeting (ID userInfo) (Name userInfo) (Image192 userInfo) in
      match err with
      | Some err => ret ("", Some err)
      | None => ret (Sprintf userTemplate [Host meeting; Host meeting; meetingURL], None)
      end
  end.

(** *** Slash command ([handlers.go]) *)

(** [case errInvalidAuth, errInactiveAccount, errMissingAuthToken] *)
Definition credentialError (err : error) : bool :=
  (String.eqb err errInvalidAuth || String.eqb err errInactiveAccount
   || String.eqb err errMissingAuthToken)%bool.

Definition configureServer (s : SlashCommandHandlers) (r : Request) : M unit :=
  let teamID := PostFormValue r "team_id" in
  let text := PostFormValue r "text" in
  let configuration := strings_Split text " " in
  let* second := index configuration 1 in
  if String.eqb second "default" then
    let* err := call (EvServerConfigRemove teamID) (ServerConfigWriter_Remove E teamID) in
    match err with
    | Some err =>
        logError err "defaulting server" ;;
        WriteHeader StatusInternalServerError
    | None =>
        WriteHeader StatusOK ;;
        Write "Your team's conferences will now be hosted on https://meet.jit.si"
    end
  else if negb (Regexp.MatchString serverConfigRE text) then
    Header_Set "Content-type" "application/json" ;;
    WriteHeader StatusOK ;;
    Write "A proper conference host must be provided."
  else
    let* first := match Regexp.FindAllStringSubmatch serverConfigRE text !! 0 with
                  | Some m => ret m
                  | None => panic "index out of range"
                  end in
    let* host := index first 1 in
    let host := strings_Trim host "<>" in
    let* err := call (EvServerConfigStore {| cfgTeamID := teamID; cfgServer := host |})
                  (ServerConfigWriter_Store E {| cfgTeamID := teamID; cfgServer := host |}) in
    match err with
    | Some err =>
        logError err "configuring server" ;;
        WriteHeader StatusInternalServerError
    | None =>
        Header_Set "Content-type" "application/json" ;;
        WriteHeader StatusOK ;;
        Write (Sprintf "Your team's conferences will now be hosted on %s
Run `/jitsi server default` if you'd like to continue using https://meet.jit.si" [host])
    end.

(** The loop over the matches; [true] when the handler has returned from
    inside it. *)
Fixpoint inviteLoop (s : SlashCommandHandlers) (token callerID : string)
    (meeting : Meeting) (matches : list (list string)) : M bool :=
  match matches with
  | [] => ret false
  | match_ :: matches' =>
      let* userID := index match_ 1 in
      let* err := sendPersonalizedInvite token callerID userID meeting in
      match err with
      | Some err =>
          if credentialError err then
            install (SharableURL s) ;;
            ret true
          else
            logError err "inviting user" ;;
            inviteLoop s token callerID meeting matches'
      | None => inviteLoop s token callerID meeting matches'
      end
  end.

(** The personalized response for the meeting initiator, after the loop. *)
Definition respondToCaller (s : SlashCommandHandlers) (token callerID : string)
    (meeting : Meeting) : M unit :=
  let* (resp, err) := joinPersonalMeetingMsg token callerID meeting in
  let finish :=
    Header_Set "Content-type" "application/json" ;;
    WriteHeader StatusOK ;;
    Write resp in
  match err with
  | Some err =>
      if credentialError err then install (SharableURL s)
      else
        logError err "inviting user" ;;
        finish
  | None => finish
  end.

(** The rest of [dispatchInvites] once the token is known: the loop, then
    the response to the caller unless the loop has returned. *)
Definition inviteAndRespond (s : SlashCommandHandlers) (token callerID : string)
    (meeting : Meeting) (matches : list (list string)) : M unit :=
  let* returned := inviteLoop s token callerID meeting matches in
  if returned then ret tt
  else respondToCaller s token callerID meeting.

Definition dispatchInvites (s : SlashCommandHandlers) (r : Request) : M unit :=
  let teamID := PostFormValue r "team_id" in
  let teamName := PostFormValue r "team_domain" in
  let* (meeting, err) := MeetingGenerator_New teamID teamName in
  match err with
  | Some err =>
      logError err "generating meeting" ;;
      WriteHeader StatusInternalServerError
  | None =>
      let text := PostFormValue r "text" in
      let matches := Regexp.FindAllStringSubmatch atMentionRE text in
      match matches with
      | [] =>
          Header_Set "Content-type" "application/json" ;;
          WriteHeader StatusOK ;;
          Write (Sprintf roomTemplate [Host meeting; Host meeting; URL meeting])
      | _ =>
          let* token := call (EvGetFirstBotTokenForTeam teamID)
                          (GetFirstBotTokenForTeam E teamID) in
          match token with
          | inr err =>
              if String.eqb err errMissingAuthToken then install (SharableURL s)
              else
                logError err "retrieving token" ;;
                WriteHeader StatusInternalServerError
          | inl token =>
              let callerID := PostFormValue r "user_id" in
              inviteAndRespond s token callerID meeting matches
          end
      end
  end.

Definition Jitsi (s : SlashCommandHandlers) (r : Request) : M unit :=
  let* valid := handleRequestValidation r (SlackSigningSecret s) in
  if negb valid then ret tt
  else
    emit EvParseForm ;;
    match ParseForm E r with
    | inr err =>
        logError err "unable to parse form data" ;;
        WriteHeader StatusInternalServerError
    | inl form =>
        let r := {| Header := Header r; Body := Body r; PostForm := form |} in
        let text := PostFormValue r "text" in
        if Regexp.MatchString helpCmdRE text then help
        else if Regexp.MatchString serverCmdRE text then configureServer s r
        else dispatchInvites s r
    end.

End Handlers.

Arguments Ret {E A} a s.
Arguments Panic {E A} msg s.
Arguments world {E} s.
Arguments resp {E} s.
Arguments trace {E} s.
Arguments RoomName {E} m.
Arguments URL {E} m.
Arguments Host {E} m.
Arguments AuthenticatedURL {E} m _ _ _ _.

(** The state a request starts in: nothing written, nothing observed. *)
Definition initial (E : Env) (w : W E) : St E :=
  {| world := w; resp := emptyResponse; trace := [] |}.

(** ** A scripted environment

    A small deterministic set of collaborators, used to run the handlers on
    concrete requests: what each one answers is decided by its arguments. *)

Definition lower_ascii (c : ascii) : ascii :=
  let n := nat_of_ascii c in
  if (Nat.leb 65 n && Nat.leb n 90)%bool then ascii_of_nat (n + 32) else c.

Fixpoint lower (s : string) : string :=
  match s with
  | String c s' => String (lower_ascii c) (lower s')
  | EmptyString => ""
  end.

Definition scriptedConfig (teamID : string) : ServerCfg + error :=
  if String.eqb teamID "TDOWN" then inr "config store unreachable"
  else if String.eqb teamID "TAUTH" then
    inl {| Server := "https://auth.example"; TenantScopedURLs := true;
           AuthenticatedURLSupport := true |}
  else
    inl {| Server := "https://meet.jit.si"; TenantScopedURLs := false;
           AuthenticatedURLSupport := false |}.

Definition scriptedUser (userID : string) : UserInfo + error :=
  if String.eqb userID "UREVOKED" then inr errInvalidAuth
  else if String.eqb userID "UGONE" then inr "user_not_found"
  else inl {| ID := userID; Name := String.append "name-" userID; Image192 := "" |}.

Definition scripted : Env :=
  {| W := unit;
     RequestTimestampHeader := "X-Slack-Request-Timestamp";
     RequestSignatureHeader := "X-Slack-Signature";
     ValidRequest := fun secret body ts sig =>
       String.eqb sig (String.append "v0=" (String.append secret ts));
     ParseForm := fun r => inl (PostForm r);
     strings_ToLower := lower;
     RandomName := fun w => ("QuietFoxesRunFast", w);
     ServerConfigReader_Get := fun teamID w => (scriptedConfig teamID, w);
     ServerConfigWriter_Store := fun _ w => (None, w);
     ServerConfigWriter_Remove := fun _ w => (None, w);
     CreateJWT := fun i w =>
       (if String.eqb (UserID i) "UNOSIGN" then inr "signing failed"
        else inl (String.append "jwt-" (UserID i)), w);
     GetFirstBotTokenForTeam := fun teamID w =>
       (if String.eqb teamID "TNEW" then inr errMissingAuthToken else inl "xoxb-1", w);
     GetUserInfo := fun _ userID w => (scriptedUser userID, w);
     OpenConversation := fun _ users w =>
       (match users with
        | u :: _ => inl (String.append "D-" u)
        | [] => inr "users_not_found"
        end, w);
     PostMessage := fun _ _ _ _ w => (None, w) |}.

Definition handlers : SlashCommandHandlers :=
  {| SlackSigningSecret := "secret"; SharableURL := "https://install.example" |}.

(** A signed slash-command request of the scripted environment. *)
Definition command (teamID teamDomain userID text : string) : Request :=
  {| Header := {[ "X-Slack-Request-Timestamp" := ["1"];
                  "X-Slack-Signature" := ["v0=secret1"] ]};
     Body := inl "payload";
     PostForm := {[ "team_id" := [teamID]; "team_domain" := [teamDomain];
                    "user_id" := [userID]; "text" := [text] ]} |}.

(** ** Specification vocabulary *)

(** A header that is absent, or whose first value is empty. *)
Definition absentOrEmpty (h : Values) (key : string) : Prop :=
  h !! key = None \/ Values_Get h key = "".

(** The state after a handler has done nothing but write the status
    [code]. *)
Definition onlyStatus {E : Env} (code : nat) (st : St E) : St E :=
  {| world := world st; resp := writeHeader code (resp st); trace := trace st |}.

(** The state a computation ends in, whether it returned or panicked. *)
Definition final {E : Env} {A : Type} (r : Res E A) : St E :=
  match r with
  | Ret _ s => s
  | Panic _ s => s
  end.

Section Validation.

Variable E : Env.

Lemma absent_Get (h : Values) (key : string) :
  absentOrEmpty h key -> Values_Get h key = "".
Proof.
  intros [Hnone | Hempty]; [|exact Hempty].
  unfold Values_Get. rewrite Hnone. reflexivity.
Qed.

(** C9. A request whose timestamp header or signature header is absent or
    empty is rejected before anything else happens: validation returns
    false having only written the status 401, and the slash-command handler
    returns in that same state, so no body is read, no signature is computed
    and no command is parsed or run. *)
Theorem missing_header_fails_closed (s : SlashCommandHandlers) (r : Request) (st : St E) :
  absentOrEmpty (Header r) (RequestTimestampHeader E) \/
  absentOrEmpty (Header r) (RequestSignatureHeader E) ->
  handleRequestValidation E r (SlackSigningSecret s) st
    = Ret false (onlyStatus StatusUnauthorized st) /\
  Jitsi E s r st = Ret tt (onlyStatus StatusUnauthorized st) /\
  trace (final (Jitsi E s r st)) = trace st /\
  (status (resp st) = None ->
   status (resp (final (Jitsi E s r st))) = Some 401 /\
   body (resp (final (Jitsi E s r st))) = body (resp st)).
Proof.
  intros Hmissing.
  assert (Hv : handleRequestValidation E r (SlackSigningSecret s) st
               = Ret false (onlyStatus StatusUnauthorized st)).
  { unfold handleRequestValidation.
    destruct Hmissing as [H | H]; apply absent_Get in H; rewrite H; simpl.
    - reflexivity.
    - rewrite orb_true_r. reflexivity. }
  assert (Hj : Jitsi E s r st = Ret tt (onlyStatus StatusUnauthorized st)).
  { unfold Jitsi, bind. rewrite Hv. reflexivity. }
  split; [exact Hv|]. split; [exact Hj|]. rewrite Hj. simpl.
  split; [reflexivity|]. intros Hfresh. rewrite Hfresh. split; reflexivity.
Qed.

End Validation.

(** A request that carries a timestamp but no signature header. *)
Definition unsigned : Request :=
  {| Header := {[ "X-Slack-Request-Timestamp" := ["1"] ]};
     Body := inl "payload";
     PostForm := ∅ |}.

Lemma missing_header_fails_closed_witness :
  absentOrEmpty (Header unsigned) (RequestSignatureHeader scripted) /\
  Jitsi scripted handlers unsigned (initial scripted tt)
    = Ret tt (Build_St scripted tt
                {| header := ∅; status := Some 401; body := "" |} []).
Proof.
  assert (H : absentOrEmpty (Header unsigned) (RequestSignatureHeader scripted))
    by (left; reflexivity).
  split; [exact H|].
  exact (proj1 (proj2 (missing_header_fails_closed scripted handlers unsigned
                         (initial scripted tt) (or_intror H)))).
Defined.

(** The three intents of the command router, as the specification words
    them: decided by the prefix of the text, in priority order. *)
Inductive Intent : Type :=
  | Help
  | ConfigureServer
  | DispatchInvites.

Definition Route (commandText : string) : Intent :=
  if String.prefix "help" commandText then Help
  else if String.prefix "server" commandText then ConfigureServer
  else DispatchInvites.

(** The handler the slash command runs for an intent. *)
Definition handlerOf (E : Env) (i : Intent) (s : SlashCommandHandlers) (r : Request)
  : M E unit :=
  match i with
  | Help => help E
  | ConfigureServer => configureServer E s r
  | DispatchInvites => dispatchInvites E s r
  end.

Section Routing.

Variable E : Env.

(** A pattern made of literals matches at the head of [s] exactly when
    its text is a prefix of [s]. *)
Lemma run_lits_prefix (p s w : string) (g : Regexp.group) :
  Regexp.found (Regexp.run (lits p) s w g) = String.prefix p s.
Proof.
  revert s w g. induction p as [|c p IH]; intros s w g; simpl.
  - destruct s; reflexivity.
  - destruct s as [|d s]; [reflexivity|].
    change (String.prefix (String c p) (String d s))
      with (if ascii_dec c d then String.prefix p s else false).
    unfold Regexp.eqb_ascii. destruct (Ascii.eqb_spec c d) as [->|Hne].
    + destruct (ascii_dec d d) as [_|Hn]; [apply IH|contradiction].
    + destruct (ascii_dec c d) as [Heq|_]; [contradiction|reflexivity].
Qed.

Lemma MatchString_anchored_lits (p s : string) :
  Regexp.MatchString (Regexp.MustCompile true (lits p)) s = String.prefix p s.
Proof. unfold Regexp.MatchString, Regexp.matchAt. simpl. apply run_lits_prefix. Qed.

(** C5. Once a request has passed validation and its form has been parsed,
    the slash command runs the handler of the routed intent, and nothing
    else: a text with the prefix [help] gets the help response, otherwise a
    text with the prefix [server] goes to server configuration, and every
    other text, the empty one included, goes to invite dispatch. *)
Theorem Jitsi_routes_by_prefix (s : SlashCommandHandlers) (r : Request) (st st1 : St E)
    (form : Values) :
  handleRequestValidation E r (SlackSigningSecret s) st = Ret true st1 ->
  ParseForm E r = inl form ->
  let r' := {| Header := Header r; Body := Body r; PostForm := form |} in
  let st2 := {| world := world st1; resp := resp st1;
                trace := trace st1 ++ [EvParseForm] |} in
  Jitsi E s r st = handlerOf E (Route (PostFormValue r' "text")) s r' st2 /\
  Route "" = DispatchInvites.
Proof.
  intros Hvalid Hform r' st2. split; [|reflexivity].
  unfold Jitsi, bind. rewrite Hvalid. simpl. rewrite Hform.
  unfold helpCmdRE, serverCmdRE. rewrite !MatchString_anchored_lits.
  unfold Route. fold r'.
  destruct (String.prefix "help" (PostFormValue r' "text")); [reflexivity|].
  destruct (String.prefix "server" (PostFormValue r' "text")); reflexivity.
Qed.

End Routing.

Lemma Jitsi_routes_by_prefix_witness :
  let r := command "T1" "acme" "U1" "server default" in
  Jitsi scripted handlers r (initial scripted tt)
    = configureServer scripted handlers r
        (Build_St scripted tt emptyResponse
           [EvReadBody; EvValidRequest "secret" "payload" "1" "v0=secret1"; EvParseForm]).
Proof.
  intros r.
  exact (proj1 (Jitsi_routes_by_prefix scripted handlers r (initial scripted tt)
                  (Build_St scripted tt emptyResponse
                     [EvReadBody; EvValidRequest "secret" "payload" "1" "v0=secret1"])
                  (PostForm r) eq_refl eq_refl)).
Defined.

(** One step of symbolic execution: unfold the monad and the writer, and
    reduce. *)
Ltac step :=
  cbv beta iota zeta delta
    [bind ret call emit respond panic index logError Header_Set WriteHeader Write];
  simpl.

Lemma append_empty_r (s : string) : String.append s "" = s.
Proof.
  induction s as [|c s IH]; [reflexivity|].
  change (String c (String.append s "") = String c s). now rewrite IH.
Qed.

Lemma string_append_assoc (a b c : string) :
  String.append (String.append a b) c = String.append a (String.append b c).
Proof.
  induction a as [|x a IH]; [reflexivity|].
  change (String x (String.append (String.append a b) c)
          = String x (String.append a (String.append b c))).
  now rewrite IH.
Qed.

Lemma string_length_append (a b : string) :
  String.length (String.append a b) = String.length a + String.length b.
Proof.
  induction a as [|x a IH]; [reflexivity|].
  change (S (String.length (String.append a b)) = S (String.length a + String.length b)).
  now rewrite IH.
Qed.

Lemma Sprintf_path3 (a b c : string) :
  Sprintf "%s/%s/%s" [a; b; c] = (a ++ "/" ++ b ++ "/" ++ c)%string.
Proof. simpl. now rewrite append_empty_r. Qed.

Lemma Sprintf_path2 (a b : string) :
  Sprintf "%s/%s" [a; b] = (a ++ "/" ++ b)%string.
Proof. simpl. now rewrite append_empty_r. Qed.

Section Meetings.

Variable E : Env.

(** The state after [MeetingGenerator.New] has drawn a room name and read
    the configuration, leaving the world [w]. *)
Definition generated (teamID : string) (w : W E) (st : St E) : St E :=
  {| world := w; resp := resp st;
     trace := trace st ++ [EvRandomName; EvServerConfigGet teamID] |}.

(** The claim set the signer receives for a recipient of a meeting. *)
Definition claimsFor (teamID teamName roomName userID userName avatarURL : string)
  : JWTInput :=
  {| TenantID := teamID; TenantName := teamName; RoomClaim := roomName;
     UserID := userID; UserName := userName; AvatarURL := avatarURL |}.

Lemma New_readable (teamID teamName room : string) (srv : ServerCfg)
    (st : St E) (w1 w2 : W E) :
  RandomName E (world st) = (room, w1) ->
  ServerConfigReader_Get E teamID w1 = (inl srv, w2) ->
  exists mtg,
    MeetingGenerator_New E teamID teamName st = Ret (mtg, None) (generated teamID w2 st) /\
    RoomName mtg = room /\
    Host mtg = Server srv /\
    URL mtg = (if TenantScopedURLs srv
               then Server srv ++ "/" ++ strings_ToLower E teamName ++ "/" ++ room
               else Server srv ++ "/" ++ room)%string /\
    AuthenticatedURL mtg =
      (if AuthenticatedURLSupport srv then
         fun userID userName avatarURL =>
           bind E
             (call E (EvCreateJWT (claimsFor teamID teamName room userID userName avatarURL))
                (CreateJWT E (claimsFor teamID teamName room userID userName avatarURL)))
             (fun jwt =>
                match jwt with
                | inr err => ret E ("", Some err)
                | inl jwt => ret E (Sprintf "%s?jwt=%s" [URL mtg; jwt], None)
                end)
       else fun _ _ _ => ret E (URL mtg, None)).
Proof.
  intros Hname Hcfg. eexists. split.
  - unfold MeetingGenerator_New, generated. step. rewrite Hname.
    step. rewrite Hcfg. step. rewrite <- app_assoc. reflexivity.
  - simpl. split; [reflexivity|]. split; [reflexivity|]. split; [|reflexivity].
    destruct (TenantScopedURLs srv); [apply Sprintf_path3 | apply Sprintf_path2].
Qed.

(** The state after one call to the token signer with the claims [i],
    leaving the world [w]. *)
Definition signed (i : JWTInput) (w : W E) (st : St E) : St E :=
  {| world := w; resp := resp st; trace := trace st ++ [EvCreateJWT i] |}.

(** C8. Whenever the workspace's configuration can be read, the meeting is
    built and its base URL is [host/lowercased workspace name/room] for a
    tenant-scoped configuration and [host/room] otherwise, where the host is
    the configured server and the room is the name that was generated. *)
Theorem base_URL_shape (teamID teamName room : string) (srv : ServerCfg)
    (st : St E) (w1 w2 : W E) :
  RandomName E (world st) = (room, w1) ->
  ServerConfigReader_Get E teamID w1 = (inl srv, w2) ->
  exists mtg,
    MeetingGenerator_New E teamID teamName st = Ret (mtg, None) (generated teamID w2 st) /\
    RoomName mtg = room /\
    Host mtg = Server srv /\
    URL mtg = (if TenantScopedURLs srv
               then Server srv ++ "/" ++ strings_ToLower E teamName ++ "/" ++ room
               else Server srv ++ "/" ++ room)%string.
Proof.
  intros Hname Hcfg.
  destruct (New_readable teamID teamName room srv st w1 w2 Hname Hcfg)
    as (mtg & Hnew & Hroom & Hhost & Hurl & _).
  exists mtg. auto.
Qed.

(** C7. Without authenticated-URL support the meeting's capability is
    constant: whatever the user ID, user name and avatar URL, and whatever
    the state it is called in, it returns the meeting's base URL with no
    error and leaves the state as it was, so the signer is not called. *)
Theorem unauthenticated_URL_constant (teamID teamName room : string) (srv : ServerCfg)
    (st : St E) (w1 w2 : W E) :
  RandomName E (world st) = (room, w1) ->
  ServerConfigReader_Get E teamID w1 = (inl srv, w2) ->
  AuthenticatedURLSupport srv = false ->
  exists mtg,
    MeetingGenerator_New E teamID teamName st = Ret (mtg, None) (generated teamID w2 st) /\
    forall (userID userName avatarURL : string) (st' : St E),
      AuthenticatedURL mtg userID userName avatarURL st' = Ret (URL mtg, None) st'.
Proof.
  intros Hname Hcfg Hoff.
  destruct (New_readable teamID teamName room srv st w1 w2 Hname Hcfg)
    as (mtg & Hnew & _ & _ & _ & Hcap).
  exists mtg. split; [exact Hnew|].
  intros userID userName avatarURL st'. rewrite Hcap, Hoff. reflexivity.
Qed.

(** C6. With authenticated-URL support, the capability calls the signer
    once, with the claim set made of the workspace, the meeting's room name
    and the recipient's user ID, name and avatar; when the signer returns a
    token the result is the base URL followed by [?jwt=] and the token, and
    when it fails the result is that error with the empty string for URL. *)
Theorem authenticated_URL_signs (teamID teamName room : string) (srv : ServerCfg)
    (st : St E) (w1 w2 : W E) :
  RandomName E (world st) = (room, w1) ->
  ServerConfigReader_Get E teamID w1 = (inl srv, w2) ->
  AuthenticatedURLSupport srv = true ->
  exists mtg,
    MeetingGenerator_New E teamID teamName st = Ret (mtg, None) (generated teamID w2 st) /\
    forall (userID userName avatarURL : string) (st' : St E),
      let i := claimsFor teamID teamName (RoomName mtg) userID userName avatarURL in
      RoomClaim i = RoomName mtg /\
      AuthenticatedURL mtg userID userName avatarURL st' =
        match CreateJWT E i (world st') with
        | (inl jwt, w') => Ret ((URL mtg ++ "?jwt=" ++ jwt)%string, None) (signed i w' st')
        | (inr err, w') => Ret ("", Some err) (signed i w' st')
        end.
Proof.
  intros Hname Hcfg Hon.
  destruct (New_readable teamID teamName room srv st w1 w2 Hname Hcfg)
    as (mtg & Hnew & Hroom & _ & _ & Hcap).
  exists mtg. split; [exact Hnew|].
  intros userID userName avatarURL st' i. split; [reflexivity|].
  rewrite Hcap, Hon. subst i. rewrite Hroom. unfold signed. step.
  destruct (CreateJWT E _ (world st')) as [[jwt|err] w']; step;
    [rewrite append_empty_r|]; reflexivity.
Qed.

End Meetings.

Lemma base_URL_shape_witness :
  exists mtg,
    MeetingGenerator_New scripted "TAUTH" "Acme" (initial scripted tt)
      = Ret (mtg, None) (generated scripted "TAUTH" tt (initial scripted tt)) /\
    RoomName mtg = "QuietFoxesRunFast" /\
    Host mtg = "https://auth.example" /\
    URL mtg = "https://auth.example/acme/QuietFoxesRunFast".
Proof.
  exact (base_URL_shape scripted "TAUTH" "Acme" "QuietFoxesRunFast"
           {| Server := "https://auth.example"; TenantScopedURLs := true;
              AuthenticatedURLSupport := true |}
           (initial scripted tt) tt tt eq_refl eq_refl).
Defined.

Lemma unauthenticated_URL_constant_witness :
  exists mtg,
    MeetingGenerator_New scripted "T1" "Acme" (initial scripted tt)
      = Ret (mtg, None) (generated scripted "T1" tt (initial scripted tt)) /\
    forall (userID userName avatarURL : string) (st' : St scripted),
      AuthenticatedURL mtg userID userName avatarURL st' = Ret (URL mtg, None) st'.
Proof.
  exact (unauthenticated_URL_constant scripted "T1" "Acme" "QuietFoxesRunFast"
           {| Server := "https://meet.jit.si"; TenantScopedURLs := false;
              AuthenticatedURLSupport := false |}
           (initial scripted tt) tt tt eq_refl eq_refl eq_refl).
Defined.

Lemma authenticated_URL_signs_witness :
  exists mtg,
    MeetingGenerator_New scripted "TAUTH" "Acme" (initial scripted tt)
      = Ret (mtg, None) (generated scripted "TAUTH" tt (initial scripted tt)) /\
    forall (userID userName avatarURL : string) (st' : St scripted),
      let i := claimsFor "TAUTH" "Acme" (RoomName mtg) userID userName avatarURL in
      RoomClaim i = RoomName mtg /\
      AuthenticatedURL mtg userID userName avatarURL st' =
        match CreateJWT scripted i (world st') with
        | (inl jwt, w') => Ret ((URL mtg ++ "?jwt=" ++ jwt)%string, None) (signed scripted i w' st')
        | (inr err, w') => Ret ("", Some err) (signed scripted i w' st')
        end.
Proof.
  exact (authenticated_URL_signs scripted "TAUTH" "Acme" "QuietFoxesRunFast"
           {| Server := "https://auth.example"; TenantScopedURLs := true;
              AuthenticatedURLSupport := true |}
           (initial scripted tt) tt tt eq_refl eq_refl eq_refl).
Defined.

(** The user identifiers of a command text: [match[1]] of every match of
    [atMentionRE], as the dispatch loop reads them. *)
Definition mentionedIDs (text : string) : list string :=
  map (fun m => nth 1 m "") (Regexp.FindAllStringSubmatch atMentionRE text).

(** The base URL of a meeting in [room] for the configuration [srv]. *)
Definition baseURL (E : Env) (srv : ServerCfg) (teamName room : string) : string :=
  (if TenantScopedURLs srv
   then Server srv ++ "/" ++ strings_ToLower E teamName ++ "/" ++ room
   else Server srv ++ "/" ++ room)%string.

(** A JSON response with status 200 and body [b], written on [w]. *)
Definition jsonOK (b : string) (w : ResponseWriter) : ResponseWriter :=
  write b (writeHeader StatusOK (setHeader "Content-type" "application/json" w)).

Section Dispatch.

Variable E : Env.

Lemma no_mentions_no_matches (text : string) :
  mentionedIDs text = [] -> Regexp.FindAllStringSubmatch atMentionRE text = [].
Proof. unfold mentionedIDs. apply map_eq_nil. Qed.

(** C4. When the command text mentions nobody, invite dispatch never asks
    the token store for a credential, whatever else happens; and when the
    workspace's configuration can be read it answers at once, status 200,
    with the channel-wide meeting-started message carrying the meeting's
    base URL, having only drawn the room name and read the configuration. *)
Theorem no_mentions_no_token_lookup (s : SlashCommandHandlers) (r : Request) (st : St E) :
  mentionedIDs (PostFormValue r "text") = [] ->
  (forall teamID,
     In (EvGetFirstBotTokenForTeam teamID) (trace (final (dispatchInvites E s r st))) ->
     In (EvGetFirstBotTokenForTeam teamID) (trace st)) /\
  (forall room srv w1 w2,
     RandomName E (world st) = (room, w1) ->
     ServerConfigReader_Get E (PostFormValue r "team_id") w1 = (inl srv, w2) ->
     dispatchInvites E s r st =
       Ret tt {| world := w2;
                 resp := jsonOK (Sprintf roomTemplate
                                   [Server srv; Server srv;
                                    baseURL E srv (PostFormValue r "team_domain") room])
                           (resp st);
                 trace := trace st ++ [EvRandomName;
                                       EvServerConfigGet (PostFormValue r "team_id")] |}).
Proof.
  intros Hnone. apply no_mentions_no_matches in Hnone. split.
  - intros teamID. unfold dispatchInvites, MeetingGenerator_New. step.
    destruct (RandomName E (world st)) as [room w1]. step.
    destruct (ServerConfigReader_Get E _ w1) as [[srv|err] w2]; step.
    + rewrite Hnone. step. rewrite !in_app_iff. simpl.
      intros [[H | [H | []]] | [H | []]]; try discriminate. exact H.
    + rewrite !in_app_iff. simpl.
      intros [[[H | [H | []]] | [H | []]] | [H | []]]; try discriminate. exact H.
  - intros room srv w1 w2 Hname Hcfg.
    destruct (New_readable E (PostFormValue r "team_id") (PostFormValue r "team_domain")
                room srv st w1 w2 Hname Hcfg)
      as (mtg & Hnew & _ & Hhost & Hurl & _).
    unfold dispatchInvites. unfold bind at 1. rewrite Hnew.
    rewrite Hnone. step. rewrite Hhost, Hurl. reflexivity.
Qed.

End Dispatch.

Lemma no_mentions_no_token_lookup_witness :
  let r := command "T1" "Acme" "U1" "standup now" in
  mentionedIDs (PostFormValue r "text") = [] /\
  dispatchInvites scripted handlers r (initial scripted tt) =
    Ret tt (Build_St scripted tt
              (jsonOK (Sprintf roomTemplate
                         ["https://meet.jit.si"; "https://meet.jit.si";
                          "https://meet.jit.si/QuietFoxesRunFast"])
                 emptyResponse)
              [EvRandomName; EvServerConfigGet "T1"]).
Proof.
  intros r. split; [reflexivity|].
  exact (proj2 (no_mentions_no_token_lookup scripted handlers r (initial scripted tt) eq_refl)
           "QuietFoxesRunFast"
           {| Server := "https://meet.jit.si"; TenantScopedURLs := false;
              AuthenticatedURLSupport := false |}
           tt tt eq_refl eq_refl).
Defined.

(** The state after the install prompt has been written on [st]. *)
Definition installed {E : Env} (s : SlashCommandHandlers) (st : St E) : St E :=
  {| world := world st;
     resp := jsonOK (Sprintf installMessage [SharableURL s]) (resp st);
     trace := trace st |}.

(** The state after the error [err] of an invite has been logged on [st]. *)
Definition logged {E : Env} (err : error) (st : St E) : St E :=
  {| world := world st; resp := resp st;
     trace := trace st ++ [EvLogError err "inviting user"] |}.

(** The state after the response [b] has been written on [st]. *)
Definition answered {E : Env} (b : string) (st : St E) : St E :=
  {| world := world st; resp := jsonOK b (resp st); trace := trace st |}.

Section InviteLoop.

Variable E : Env.
Variable s : SlashCommandHandlers.
Variables token callerID : string.
Variable meeting : Meeting E.

Lemma install_run (st : St E) : install E (SharableURL s) st = Ret tt (installed s st).
Proof. reflexivity. Qed.

(** One iteration of the loop on a match [[whole; userID]]. *)
Lemma inviteLoop_cons (whole userID : string) (matches : list (list string)) (st : St E) :
  inviteLoop E s token callerID meeting ([whole; userID] :: matches) st =
    match sendPersonalizedInvite E token callerID userID meeting st with
    | Ret (Some err) st' =>
        if credentialError err then Ret true (installed s st')
        else inviteLoop E s token callerID meeting matches (logged err st')
    | Ret None st' => inviteLoop E s token callerID meeting matches st'
    | Panic msg st' => Panic msg st'
    end.
Proof.
  cbn [inviteLoop]. step.
  destruct (sendPersonalizedInvite E token callerID userID meeting st)
    as [[err|] st'|msg st']; try reflexivity.
  destruct (credentialError err); reflexivity.
Qed.

(** A loop that went through [pre] without returning goes on with what
    follows, from the state it reached. *)
Lemma inviteLoop_app (pre post : list (list string)) (st st1 : St E) :
  inviteLoop E s token callerID meeting pre st = Ret false st1 ->
  inviteLoop E s token callerID meeting (pre ++ post) st
    = inviteLoop E s token callerID meeting post st1.
Proof.
  revert st. induction pre as [|m pre IH]; intros st Hpre.
  - cbn in Hpre. injection Hpre as ->. reflexivity.
  - cbn [app inviteLoop] in *. unfold bind in *.
    destruct (index E m 1 st) as [userID st'|]; [|discriminate].
    destruct (sendPersonalizedInvite E token callerID userID meeting st')
      as [[err|] st''|]; [| |discriminate].
    + destruct (credentialError err).
      * rewrite install_run in Hpre. discriminate Hpre.
      * unfold logError, emit in *. apply IH. exact Hpre.
    + apply IH. exact Hpre.
Qed.

(** A confirmation that composes is the caller's personalized message. *)
Lemma joinPersonalMeetingMsg_ok (b : string) (st st' : St E) :
  joinPersonalMeetingMsg E token callerID meeting st = Ret (b, None) st' ->
  exists url, b = Sprintf userTemplate [Host meeting; Host meeting; url].
Proof.
  unfold joinPersonalMeetingMsg. step.
  destruct (GetUserInfo E token callerID (world st)) as [[u|err] w']; step;
    [|discriminate].
  destruct (AuthenticatedURL meeting (ID u) (Name u) (Image192 u) _)
    as [[url [err|]] st''|]; step; try discriminate.
  intros H. injection H as <- _. exists url. reflexivity.
Qed.

(** C1. Take any sequence of matches and the recipient the loop has reached
    in it without having returned, and let the invite to that recipient fail
    with [err].  If [err] is one of the three credential-invalidation codes,
    the loop returns at once: the handler answers with the install prompt in
    the very state the failed invite left, so nothing is sent to any later
    recipient.  If [err] is anything else, it is logged and the loop goes on
    with the next recipient; and when the loop then completes and the
    caller's confirmation composes, the handler answers with that
    personalized confirmation. *)
Theorem invite_failure_handling (pre post : list (list string)) (whole userID : string)
    (err : error) (st st1 st2 : St E) :
  inviteLoop E s token callerID meeting pre st = Ret false st1 ->
  sendPersonalizedInvite E token callerID userID meeting st1 = Ret (Some err) st2 ->
  let matches := pre ++ [whole; userID] :: post in
  (credentialError err = true ->
     inviteLoop E s token callerID meeting matches st = Ret true (installed s st2) /\
     inviteAndRespond E s token callerID meeting matches st = Ret tt (installed s st2)) /\
  (credentialError err = false ->
     inviteLoop E s token callerID meeting matches st
       = inviteLoop E s token callerID meeting post (logged err st2) /\
     forall (st3 st4 : St E) (b : string),
       inviteLoop E s token callerID meeting post (logged err st2) = Ret false st3 ->
       joinPersonalMeetingMsg E token callerID meeting st3 = Ret (b, None) st4 ->
       inviteAndRespond E s token callerID meeting matches st = Ret tt (answered b st4) /\
       exists url, b = Sprintf userTemplate [Host meeting; Host meeting; url]).
Proof.
  intros Hpre Hsend matches.
  assert (Hloop : inviteLoop E s token callerID meeting matches st =
                  if credentialError err then Ret true (installed s st2)
                  else inviteLoop E s token callerID meeting post (logged err st2)).
  { unfold matches. rewrite (inviteLoop_app pre _ st st1 Hpre).
    rewrite inviteLoop_cons, Hsend. reflexivity. }
  split; intros Hcred; rewrite Hcred in Hloop.
  - split; [exact Hloop|]. unfold inviteAndRespond, bind. rewrite Hloop. reflexivity.
  - split; [exact Hloop|]. intros st3 st4 b Hrest Hjoin. split.
    + unfold inviteAndRespond, bind. rewrite Hloop, Hrest.
      unfold respondToCaller, bind. rewrite Hjoin. reflexivity.
    + exact (joinPersonalMeetingMsg_ok b st3 st4 Hjoin).
Qed.

End InviteLoop.

(** The meeting the scripted environment generates for the workspace
    [TAUTH]. *)
Definition scriptedMeeting : Meeting scripted :=
  match MeetingGenerator_New scripted "TAUTH" "Acme" (initial scripted tt) with
  | Ret (m, _) _ => m
  | Panic _ _ => zeroMeeting scripted
  end.

Definition mention (userID : string) : list string :=
  [String.append "<@" userID; userID].

(** Recipient 2 of 3 fails: with an unknown user ([user_not_found]) the
    third recipient is still invited and the caller gets the confirmation;
    with a revoked credential ([invalid_auth]) the third recipient is never
    looked up and the caller gets the install prompt. *)
Lemma invite_failure_handling_witness :
  let run := inviteAndRespond scripted handlers "xoxb-1" "UCALLER" scriptedMeeting in
  let st := initial scripted tt in
  (exists st4 url,
     run [mention "U1"; mention "UGONE"; mention "U3"] st
       = Ret tt (answered (Sprintf userTemplate
                             ["https://auth.example"; "https://auth.example"; url]) st4) /\
     In (EvGetUserInfo "xoxb-1" "U3") (trace st4)) /\
  (exists st2,
     run [mention "U1"; mention "UREVOKED"; mention "U3"] st
       = Ret tt (installed handlers st2) /\
     ~ In (EvGetUserInfo "xoxb-1" "U3") (trace st2)).
Proof.
  intros run st.
  pose (loop := inviteLoop scripted handlers "xoxb-1" "UCALLER" scriptedMeeting).
  pose (st1 := final (loop [mention "U1"] st)).
  split.
  - pose (st2 := final (sendPersonalizedInvite scripted "xoxb-1" "UCALLER" "UGONE"
                          scriptedMeeting st1)).
    pose (st3 := final (loop [mention "U3"] (logged "user_not_found" st2))).
    pose (st4 := final (joinPersonalMeetingMsg scripted "xoxb-1" "UCALLER"
                          scriptedMeeting st3)).
    destruct (invite_failure_handling scripted handlers "xoxb-1" "UCALLER" scriptedMeeting
                [mention "U1"] [mention "U3"] "<@UGONE" "UGONE" "user_not_found"
                st st1 st2 eq_refl eq_refl) as [_ Hother].
    destruct (Hother eq_refl) as [_ Hrest].
    destruct (Hrest st3 st4 _ eq_refl eq_refl) as [Hrun _].
    exists st4. eexists. split; [exact Hrun|].
    vm_compute. tauto.
  - pose (st2 := final (sendPersonalizedInvite scripted "xoxb-1" "UCALLER" "UREVOKED"
                          scriptedMeeting st1)).
    destruct (invite_failure_handling scripted handlers "xoxb-1" "UCALLER" scriptedMeeting
                [mention "U1"] [mention "U3"] "<@UREVOKED" "UREVOKED" errInvalidAuth
                st st1 st2 eq_refl eq_refl) as [Hcred _].
    destruct (Hcred eq_refl) as [_ Hrun].
    exists st2. split; [exact Hrun|].
    vm_compute. intros H. repeat (destruct H as [H|H]; [discriminate H|]). exact H.
Defined.

Section ConfigureServer.

Variable E : Env.

(** A request whose form carries the command [text]. *)
Definition withText (h : Values) (b : string + error) (form : Values) (text : string)
  : Request :=
  {| Header := h; Body := b; PostForm := <["text" := [text]]> form |}.

Lemma withText_text (h : Values) (b : string + error) (form : Values) (text : string) :
  PostFormValue (withText h b form text) "text" = text.
Proof.
  unfold PostFormValue, Values_Get, withText, Values in *. cbn [PostForm].
  now rewrite lookup_insert_eq.
Qed.

Definition no_space (s : string) : Prop :=
  forallb (fun c => negb (Ascii.eqb c " ")) (list_ascii_of_string s) = true.

(** A text with no space in it is a single token. *)
Lemma split_go_no_space (s cur : string) :
  no_space s -> split_go " " 0 s cur = [String.append cur s].
Proof.
  unfold no_space. revert cur. induction s as [|c s IH]; intros cur Hs.
  - simpl. now rewrite append_empty_r.
  - simpl in Hs. apply andb_prop in Hs as [Hc Hs].
    cbn [split_go].
    change (String.prefix " " (String c s))
      with (if ascii_dec " " c then String.prefix "" s else false).
    destruct (ascii_dec " " c) as [<-|_]; [discriminate Hc|].
    rewrite (IH _ Hs). f_equal. unfold Regexp.snoc.
    rewrite string_append_assoc. reflexivity.
Qed.

Lemma Split_no_space (s : string) : no_space s -> strings_Split s " " = [s].
Proof. intros Hs. unfold strings_Split. now rewrite split_go_no_space. Qed.

(** Without a space in the command text the token list has one element, and
    reading its second element panics before anything is written. *)
Lemma configureServer_panics_without_space (s : SlashCommandHandlers) (r : Request)
    (st : St E) :
  no_space (PostFormValue r "text") ->
  configureServer E s r st = Panic "index out of range" st.
Proof.
  intros Hs. unfold configureServer. rewrite (Split_no_space _ Hs). reflexivity.
Qed.

(** With a second token other than [default] and a text the URL pattern
    does not match, the answer is the instruction, status 200, and no store
    is touched. *)
Lemma configureServer_instruction (s : SlashCommandHandlers) (r : Request) (st : St E)
    (first second : string) (others : list string) :
  strings_Split (PostFormValue r "text") " " = first :: second :: others ->
  second <> "default" ->
  Regexp.MatchString serverConfigRE (PostFormValue r "text") = false ->
  configureServer E s r st =
    Ret tt {| world := world st;
              resp := jsonOK "A proper conference host must be provided." (resp st);
              trace := trace st |}.
Proof.
  intros Hsplit Hsecond Hre. unfold configureServer. rewrite Hsplit. step.
  destruct (String.eqb_spec second "default") as [Heq|_]; [contradiction|].
  rewrite Hre. reflexivity.
Qed.

(** C2 (the code departs from the claim). For the bare command [server], on
    any request and in any state, server configuration panics on the index
    into the token list: nothing is written, so there is neither the
    instruction nor a status 200. *)
Theorem configureServer_bare_server_panics (s : SlashCommandHandlers) (h : Values)
    (b : string + error) (form : Values) (st : St E) :
  let r := withText h b form "server" in
  Regexp.MatchString serverCmdRE (PostFormValue r "text") = true /\
  strings_Split (PostFormValue r "text") " " = ["server"] /\
  Regexp.MatchString serverConfigRE (PostFormValue r "text") = false /\
  configureServer E s r st = Panic "index out of range" st.
Proof.
  intros r. unfold r. rewrite withText_text.
  split; [reflexivity|]. split; [reflexivity|]. split; [reflexivity|].
  apply configureServer_panics_without_space. rewrite withText_text. reflexivity.
Qed.

End ConfigureServer.

(** The bare command [server], signed and parsed, end to end: the handler
    panics with nothing written. *)
Example Jitsi_bare_server_panics :
  Jitsi scripted handlers (command "T1" "acme" "U1" "server") (initial scripted tt)
    = Panic "index out of range"
        (Build_St scripted tt emptyResponse
           [EvReadBody; EvValidRequest "secret" "payload" "1" "v0=secret1"; EvParseForm]).
Proof. reflexivity. Qed.

Section CallerConfirmation.

Variable E : Env.
Variable s : SlashCommandHandlers.
Variables token callerID : string.
Variable meeting : Meeting E.

(** Every message the handlers mean to send has a body. *)
Lemma messages_nonempty :
  helpMessage <> "" /\
  (forall url, Sprintf installMessage [url] <> "") /\
  (forall host1 host2 url, Sprintf roomTemplate [host1; host2; url] <> "") /\
  (forall host1 host2 url, Sprintf userTemplate [host1; host2; url] <> "").
Proof. repeat split; intros; discriminate. Qed.

(** C3 (the code departs from the claim). When composing the caller's
    confirmation fails with an error that is not a credential-invalidation
    code, the handler logs it and still writes a JSON response: on a fresh
    response writer that is status 200 with an empty body, which is none of
    the help message, the install prompt, a meeting message or an
    instruction. *)
Theorem confirmation_error_writes_empty_200 (err : error) (st st' : St E) :
  joinPersonalMeetingMsg E token callerID meeting st = Ret ("", Some err) st' ->
  credentialError err = false ->
  respondToCaller E s token callerID meeting st = Ret tt (answered "" (logged err st')) /\
  (status (resp st') = None -> body (resp st') = "" ->
   status (resp (answered "" (logged err st'))) = Some 200 /\
   body (resp (answered "" (logged err st'))) = "").
Proof.
  intros Hjoin Hcred. split.
  - unfold respondToCaller, bind. rewrite Hjoin, Hcred. reflexivity.
  - intros Hfresh Hbody. simpl. rewrite Hfresh, Hbody. split; reflexivity.
Qed.

End CallerConfirmation.

(** The caller [UGONE] is unknown to Slack: composing the confirmation
    fails with [user_not_found], and the response is an empty 200. *)
Lemma confirmation_error_writes_empty_200_witness :
  exists st',
    respondToCaller scripted handlers "xoxb-1" "UGONE" scriptedMeeting (initial scripted tt)
      = Ret tt st' /\
    status (resp st') = Some 200 /\ body (resp st') = "" /\
    In (EvLogError "user_not_found" "inviting user") (trace st').
Proof.
  pose (st1 := final (joinPersonalMeetingMsg scripted "xoxb-1" "UGONE" scriptedMeeting
                        (initial scripted tt))).
  destruct (confirmation_error_writes_empty_200 scripted handlers "xoxb-1" "UGONE"
              scriptedMeeting "user_not_found" (initial scripted tt) st1 eq_refl eq_refl)
    as [Hrun Hresp].
  destruct (Hresp eq_refl eq_refl) as [Hstatus Hbody].
  eexists. split; [exact Hrun|]. split; [exact Hstatus|]. split; [exact Hbody|].
  vm_compute. tauto.
Defined.

(** End to end: a signed command that mentions one user, from a caller
    Slack cannot look up, is answered with status 200 and no body. *)
Example Jitsi_empty_confirmation :
  let st' := final (Jitsi scripted handlers (command "TAUTH" "Acme" "UGONE" "<@U1>")
                      (initial scripted tt)) in
  status (resp st') = Some 200 /\ body (resp st') = "".
Proof. vm_compute. split; reflexivity. Qed.

(** ** Mention tokens *)

(** A byte of a user identifier: anything but [>] and [|], the class
    [[^>|]] of [atMentionRE]. *)
Definition idChar (c : ascii) : bool :=
  Regexp.atom_ok (Regexp.NotIn [">"%char; "|"%char]) c.

Fixpoint allID (s : string) : bool :=
  match s with
  | String c s' => idChar c && allID s'
  | EmptyString => true
  end.

(** The longest prefix of identifier bytes, and what follows it. *)
Fixpoint takeID (s : string) : string :=
  match s with
  | String c s' => if idChar c then String c (takeID s') else ""
  | EmptyString => ""
  end.

Fixpoint dropID (s : string) : string :=
  match s with
  | String c s' => if idChar c then dropID s' else s
  | EmptyString => ""
  end.

(** A mention token starts here: [<@] followed by an identifier byte. *)
Definition mentionStart (s : string) : bool :=
  match s with
  | String a (String b (String c _)) =>
      Ascii.eqb "<" a && Ascii.eqb "@" b && idChar c
  | _ => false
  end.

(** A command text seen as its mention tokens: each token is [<@], its
    identifier [id], and the text [q] up to the next token. *)
Fixpoint renderTokens (toks : list (string * string)) : string :=
  match toks with
  | [] => ""
  | (id, q) :: toks' => "<@" +:+ id +:+ q +:+ renderTokens toks'
  end.

(** No mention token starts inside [p] when [p] is followed by [after]. *)
Fixpoint quiet (p after : string) : bool :=
  match p with
  | String c p' => negb (mentionStart (p +:+ after)) && quiet p' after
  | EmptyString => true
  end.

(** [q] starts with a byte that ends an identifier. *)
Definition stops (q : string) : bool :=
  match q with
  | String c _ => negb (idChar c)
  | EmptyString => false
  end.

(** Each identifier is non-empty, made of identifier bytes, and ends where
    the text after it starts (or at the end of the whole text); no other
    token starts in the text between two tokens. *)
Fixpoint wellFormed (toks : list (string * string)) : Prop :=
  match toks with
  | [] => True
  | (id, q) :: toks' =>
      id <> "" /\ allID id = true /\
      (stops q = true \/ (q = "" /\ toks' = [])) /\
      quiet q (renderTokens toks') = true /\
      wellFormed toks'
  end.

Section Mentions.

Lemma append_snoc (w : string) (c : ascii) (s : string) :
  Regexp.snoc w c +:+ s = w +:+ String c s.
Proof. unfold Regexp.snoc. rewrite string_append_assoc. reflexivity. Qed.

Lemma take_drop (s : string) : takeID s +:+ dropID s = s.
Proof.
  induction s as [|c s IH]; [reflexivity|]. simpl.
  destruct (idChar c); [|reflexivity].
  change (String c (takeID s +:+ dropID s) = String c s). now rewrite IH.
Qed.

Lemma takeID_empty (s : string) : takeID s = "" -> dropID s = s.
Proof. destruct s as [|c s]; [reflexivity|]. simpl. destruct (idChar c); [discriminate|reflexivity]. Qed.

Lemma run_plus_cons (a : Regexp.atom) (r : list Regexp.item) (c : ascii)
    (s w : string) (g : Regexp.group) :
  Regexp.run (Regexp.Plus a :: r) (String c s) w g =
  if Regexp.atom_ok a c then
    match Regexp.run (Regexp.Plus a :: r) s (Regexp.snoc w c) (Regexp.push g c) with
    | Some m => Some m
    | None => Regexp.run r s (Regexp.snoc w c) (Regexp.push g c)
    end
  else None.
Proof. reflexivity. Qed.

(** The greedy [[^>|]+] followed by the end of the group takes the longest
    run of identifier bytes, which must not be empty. *)
Lemma run_plus_id (s w acc : string) :
  Regexp.run [Regexp.Plus (Regexp.NotIn [">"%char; "|"%char]); Regexp.GroupClose]
    s w (Regexp.Capturing acc) =
  match takeID s with
  | EmptyString => None
  | id => Some (Regexp.Submatch (w +:+ id) (acc +:+ id) (dropID s))
  end.
Proof.
  revert w acc. induction s as [|c s IH]; intros w acc; [reflexivity|].
  rewrite run_plus_cons. cbn [takeID dropID].
  change (Regexp.atom_ok (Regexp.NotIn [">"%char; "|"%char]) c) with (idChar c).
  destruct (idChar c); [|reflexivity].
  cbn [Regexp.push]. rewrite IH.
  destruct (takeID s) as [|d id] eqn:Hid.
  - rewrite (takeID_empty s Hid). reflexivity.
  - cbv beta iota zeta. now rewrite !append_snoc.
Qed.

(** [atMentionRE] at the head of a text. *)
Lemma matchAt_mention (s : string) :
  Regexp.matchAt atMentionRE s =
  match s with
  | String a (String b r) =>
      if Ascii.eqb "<" a && Ascii.eqb "@" b then
        match takeID r with
        | EmptyString => None
        | id => Some (Regexp.Submatch ("<@" +:+ id) id (dropID r))
        end
      else None
  | _ => None
  end.
Proof.
  unfold Regexp.matchAt, atMentionRE. cbn [Regexp.items lits app].
  destruct s as [|a [|b r]]; [reflexivity| |];
    cbn [Regexp.run Regexp.atom_ok]; unfold Regexp.eqb_ascii;
    (destruct (Ascii.eqb_spec "<" a) as [<-|_]; [|reflexivity]).
  - reflexivity.
  - destruct (Ascii.eqb_spec "@" b) as [<-|_]; [|reflexivity].
    cbn [andb]. exact (run_plus_id r "<@" "").
Qed.

Lemma takeID_nonempty (r : string) :
  takeID r <> "" <-> mentionStart ("<@" +:+ r) = true.
Proof.
  destruct r as [|c r]; simpl; [split; [congruence|discriminate]|].
  destruct (idChar c); split; try congruence; try discriminate.
Qed.

Lemma matchAt_quiet (s : string) :
  mentionStart s = false -> Regexp.matchAt atMentionRE s = None.
Proof.
  intros Hs. rewrite matchAt_mention.
  destruct s as [|a [|b r]]; try reflexivity.
  destruct (Ascii.eqb_spec "<" a) as [<-|_]; [|reflexivity].
  destruct (Ascii.eqb_spec "@" b) as [<-|_]; [|reflexivity].
  cbn [andb]. destruct (takeID r) as [|d id] eqn:Hid; [reflexivity|].
  assert (H : mentionStart ("<@" +:+ r) = true) by (apply takeID_nonempty; congruence).
  change ("<@" +:+ r) with (String "<" (String "@" r)) in H. congruence.
Qed.

(** Stepping over the bytes of a match. *)
Lemma scan_skip (re : Regexp.t) (a t : string) :
  Regexp.scan re (String.length a) (a +:+ t) = Regexp.scan re 0 t.
Proof. induction a as [|c a IH]; [reflexivity|]. exact IH. Qed.

(** Text in which no token starts yields no match. *)
Lemma scan_quiet (p after : string) :
  quiet p after = true ->
  Regexp.scan atMentionRE 0 (p +:+ after) = Regexp.scan atMentionRE 0 after.
Proof.
  induction p as [|c p IH]; intros Hq; [reflexivity|].
  cbn [quiet] in Hq. apply andb_prop in Hq as [Hstart Hq].
  apply negb_true_iff in Hstart.
  change (String c p +:+ after) with (String c (p +:+ after)) in *.
  cbn [Regexp.scan]. rewrite (matchAt_quiet _ Hstart). apply IH, Hq.
Qed.

Lemma takeID_app (id after : string) :
  allID id = true -> (stops after = true \/ after = "") ->
  takeID (id +:+ after) = id /\ dropID (id +:+ after) = after.
Proof.
  intros Hid Hafter. induction id as [|c id IH].
  - change ("" +:+ after) with after.
    destruct Hafter as [Hstop| ->]; [|split; reflexivity].
    destruct after as [|d after]; [discriminate|]. simpl in *.
    destruct (idChar d); [discriminate|]. split; reflexivity.
  - cbn [allID] in Hid. apply andb_prop in Hid as [Hc Hid].
    change (String c id +:+ after) with (String c (id +:+ after)).
    cbn [takeID dropID]. rewrite Hc. destruct (IH Hid) as [-> ->]. split; reflexivity.
Qed.

Lemma stops_first (q after : string) : stops q = true -> stops (q +:+ after) = true.
Proof. destruct q; [discriminate|]. exact (fun H => H). Qed.

(** The matches of a well-formed sequence of tokens: one per token, in
    order. *)
Lemma scan_tokens (toks : list (string * string)) :
  wellFormed toks ->
  map (fun m => [Regexp.whole m; Regexp.group1 m])
      (Regexp.scan atMentionRE 0 (renderTokens toks))
  = map (fun t => ["<@" +:+ fst t; fst t]) toks.
Proof.
  induction toks as [|[id q] toks IH]; intros Hwf; [reflexivity|].
  destruct Hwf as (Hne & Hid & Hend & Hq & Hwf).
  assert (Hafter : stops (q +:+ renderTokens toks) = true \/ q +:+ renderTokens toks = "").
  { destruct Hend as [Hstop|[-> ->]]; [left; now apply stops_first|right; reflexivity]. }
  destruct (takeID_app id _ Hid Hafter) as [Htake Hdrop].
  cbn [renderTokens].
  change ("<@" +:+ id +:+ q +:+ renderTokens toks)
    with (String "<" (String "@" (id +:+ q +:+ renderTokens toks))).
  cbn [Regexp.scan]. rewrite matchAt_mention. cbn [Ascii.eqb Bool.eqb andb].
  rewrite Htake, Hdrop. destruct id as [|c id]; [contradiction|].
  cbn [map Regexp.whole Regexp.group1 fst]. f_equal.
  change (String.length ("<@" +:+ String c id) - 1) with (S (String.length (String c id))).
  cbn [Regexp.scan]. rewrite scan_skip, (scan_quiet _ _ Hq). apply IH, Hwf.
Qed.

(** Every text is a sequence of tokens after a quiet prefix. *)
Lemma tokens_exist (text : string) :
  exists p toks,
    text = p +:+ renderTokens toks /\
    quiet p (renderTokens toks) = true /\
    wellFormed toks.
Proof.
  remember (String.length text) as n eqn:Hn. revert text Hn.
  induction n as [n IH] using lt_wf_ind. intros text Hn.
  destruct text as [|c text].
  { exists "", []. repeat split. }
  destruct (mentionStart (String c text)) eqn:Hstart.
  - destruct text as [|b [|d r]]; try discriminate.
    cbn [mentionStart] in Hstart.
    apply andb_prop in Hstart as [Hab Hd]. apply andb_prop in Hab as [Ha Hb].
    apply Ascii.eqb_eq in Ha, Hb. subst c b.
    set (r' := String d r) in *.
    assert (Hlen : String.length (dropID r') < n).
    { assert (Hsum : String.length r'
                     = String.length (takeID r') + String.length (dropID r'))
        by (now rewrite <- string_length_append, take_drop).
      subst n. cbn [String.length]. fold r'. lia. }
    destruct (IH _ Hlen (dropID r') eq_refl) as (q & toks & Hrest & Hq & Hwf).
    exists "", ((takeID r', q) :: toks). split; [|split; [reflexivity|]].
    + cbn [renderTokens]. change ("" +:+ ?x) with x.
      rewrite <- Hrest.
      change (String "<" (String "@" r') = String "<" (String "@" (takeID r' +:+ dropID r'))).
      now rewrite take_drop.
    + cbn [wellFormed]. repeat split; try assumption.
      * unfold r'. cbn [takeID]. rewrite Hd. discriminate.
      * clear. induction r' as [|e r' IHr]; [reflexivity|].
        cbn [takeID]. destruct (idChar e) eqn:He; [|reflexivity].
        cbn [allID]. now rewrite He, IHr.
      * assert (Hdrop : stops (dropID r') = true \/ dropID r' = "").
        { clear. induction r' as [|e r' IHr]; [right; reflexivity|].
          cbn [dropID]. destruct (idChar e) eqn:He; [exact IHr|].
          left. cbn [stops]. now rewrite He. }
        rewrite Hrest in Hdrop. destruct q as [|e q].
        -- destruct toks as [|[id q'] toks]; [right; split; reflexivity|].
           destruct Hdrop as [H|H]; discriminate H.
        -- left. destruct Hdrop as [H|H]; [exact H|discriminate H].
  - assert (Hlen : String.length text < n) by (subst n; cbn [String.length]; lia).
    destruct (IH _ Hlen text eq_refl) as (p & toks & Htext & Hq & Hwf).
    exists (String c p), toks. split; [|split; [|exact Hwf]].
    + change (String c text = String c (p +:+ renderTokens toks)). now rewrite <- Htext.
    + cbn [quiet].
      change (String c p +:+ renderTokens toks) with (String c (p +:+ renderTokens toks)).
      rewrite <- Htext, Hstart, Hq. reflexivity.
Qed.

(** C10. Seen as a quiet prefix followed by N mention tokens (each [<@]
    and a non-empty identifier that runs up to the next [>] or [|], or to
    the end of the text), a command text yields exactly the N identifiers of
    its tokens, in their order in the text and with repetitions kept; and
    every command text can be seen that way. *)
Theorem mention_extraction_exact :
  (forall (p : string) (toks : list (string * string)),
     quiet p (renderTokens toks) = true ->
     wellFormed toks ->
     mentionedIDs (p +:+ renderTokens toks) = map fst toks /\
     length (mentionedIDs (p +:+ renderTokens toks)) = length toks) /\
  (forall text : string,
     exists p toks,
       text = p +:+ renderTokens toks /\
       quiet p (renderTokens toks) = true /\
       wellFormed toks /\
       mentionedIDs text = map fst toks).
Proof.
  assert (Hextract : forall p toks,
            quiet p (renderTokens toks) = true -> wellFormed toks ->
            mentionedIDs (p +:+ renderTokens toks) = map fst toks).
  { intros p toks Hq Hwf. unfold mentionedIDs, Regexp.FindAllStringSubmatch.
    cbn [Regexp.anchored atMentionRE].
    rewrite (scan_quiet _ _ Hq), (scan_tokens _ Hwf), map_map. reflexivity. }
  split.
  - intros p toks Hq Hwf. rewrite (Hextract p toks Hq Hwf).
    split; [reflexivity|]. now rewrite length_map.
  - intros text. destruct (tokens_exist text) as (p & toks & Htext & Hq & Hwf).
    exists p, toks. repeat split; try assumption.
    rewrite Htext at 1. exact (Hextract p toks Hq Hwf).
Qed.

End Mentions.

(** Three tokens, one identifier twice, the last one running to the end of
    the text. *)
Lemma mention_extraction_exact_witness :
  mentionedIDs "hey <@U1|bob> and <@U2> then <@U1" = ["U1"; "U2"; "U1"].
Proof.
  pose (toks := [("U1", "|bob> and "); ("U2", "> then "); ("U1", "")]).
  assert (Hwf : wellFormed toks).
  { unfold toks. cbn [wellFormed].
    repeat split; try discriminate; try reflexivity;
      try (left; reflexivity); right; split; reflexivity. }
  exact (proj1 (proj1 mention_extraction_exact "hey " toks eq_refl Hwf)).
Defined.

(** * Further properties of the handlers *)

Section ValidationOutcome.

Variable E : Env.

(** Request validation never panics and never touches the collaborators'
    world.  When it accepts, the body was readable, both headers were
    non-empty, [ValidRequest] held for exactly the secret, body, timestamp
    and signature of the request, and nothing was written.  When it rejects,
    the slash command returns at once in the state validation left, a fresh
    response carries status 401 or 500 and no body, and no form is parsed. *)
Theorem validation_sound (s : SlashCommandHandlers) (r : Request) (st : St E) :
  exists (ok : bool) (st' : St E),
    handleRequestValidation E r (SlackSigningSecret s) st = Ret ok st' /\
    world st' = world st /\
    (ok = true ->
       resp st' = resp st /\
       Values_Get (Header r) (RequestTimestampHeader E) <> "" /\
       Values_Get (Header r) (RequestSignatureHeader E) <> "" /\
       exists body,
         Body r = inl body /\
         ValidRequest E (SlackSigningSecret s) body
           (Values_Get (Header r) (RequestTimestampHeader E))
           (Values_Get (Header r) (RequestSignatureHeader E)) = true) /\
    (ok = false ->
       Jitsi E s r st = Ret tt st' /\
       ~ In EvParseForm (skipn (length (trace st)) (trace st')) /\
       (status (resp st) = None ->
        (status (resp st') = Some 401 \/ status (resp st') = Some 500) /\
        body (resp st') = body (resp st))).
Proof.
  unfold Jitsi, bind, handleRequestValidation.
  destruct (String.eqb_spec (Values_Get (Header r) (RequestTimestampHeader E)) "")
    as [Hts|Hts].
  { rewrite Hts. cbn [orb]. eexists false, _. split; [reflexivity|].
    split; [reflexivity|]. split; [discriminate|]. intros _.
    split; [reflexivity|]. cbn. rewrite skipn_all. split; [tauto|].
    intros ->. split; [left|]; reflexivity. }
  destruct (String.eqb_spec (Values_Get (Header r) (RequestSignatureHeader E)) "")
    as [Hsig|Hsig].
  { rewrite Hsig. cbn [orb]. eexists false, _. split; [reflexivity|].
    split; [reflexivity|]. split; [discriminate|]. intros _.
    split; [reflexivity|]. cbn. rewrite skipn_all. split; [tauto|].
    intros ->. split; [left|]; reflexivity. }
  cbn [orb]. unfold bind, emit, WriteHeader, respond, ret.
  destruct (Body r) as [body|err].
  - destruct (ValidRequest E (SlackSigningSecret s) body _ _) eqn:Hvalid; cbn [negb].
    + eexists true, _. split; [reflexivity|]. split; [reflexivity|].
      split; [|discriminate]. intros _. repeat split; try assumption.
      exists body. split; [reflexivity|exact Hvalid].
    + eexists false, _. split; [reflexivity|]. split; [reflexivity|].
      split; [discriminate|]. intros _. split; [reflexivity|]. cbn.
      rewrite <- app_assoc, skipn_app, skipn_all, Nat.sub_diag. cbn.
      split; [intros [H|[H|[]]]; discriminate H|].
      intros ->. split; [left|]; reflexivity.
  - eexists false, _. split; [reflexivity|]. split; [reflexivity|].
    split; [discriminate|]. intros _. split; [reflexivity|]. cbn.
    rewrite skipn_app, skipn_all, Nat.sub_diag. cbn.
    split; [intros [H|[]]; discriminate H|].
    intros ->. split; [right|]; reflexivity.
Qed.

End ValidationOutcome.

(** Unfolds the monad and the response writer, without reducing anything
    else. *)
Ltac mstep :=
  cbv beta iota zeta delta
    [bind ret call emit respond panic index logError Header_Set WriteHeader Write].

Section ConfigureServerTotal.

Variable E : Env.

Lemma split_go_cons (sep : string) (skip : nat) (s cur : string) :
  exists x l, split_go sep skip s cur = x :: l.
Proof.
  revert skip cur. induction s as [|c s IH]; intros skip cur; cbn [split_go].
  - eauto.
  - destruct skip as [|k]; [|apply IH].
    destruct (String.prefix sep (String c s)); [eauto|apply IH].
Qed.

(** A text with a space in it has at least two tokens. *)
Lemma split_go_space (s cur : string) :
  ~ no_space s -> exists x y l, split_go " " 0 s cur = x :: y :: l.
Proof.
  unfold no_space. revert cur. induction s as [|c s IH]; intros cur Hs.
  - exfalso. apply Hs. reflexivity.
  - cbn [split_go].
    change (String.prefix " " (String c s))
      with (if ascii_dec " " c then String.prefix "" s else false).
    destruct (ascii_dec " " c) as [<-|Hc].
    + assert (Hp : String.prefix "" s = true) by (destruct s; reflexivity).
      rewrite Hp. cbn [String.length Nat.sub].
      destruct (split_go_cons " " 0 s "") as (y & l & ->). eauto.
    + apply IH. intros Hrest. apply Hs. cbn [list_ascii_of_string forallb].
      rewrite Hrest, andb_true_r. apply negb_true_iff.
      destruct (Ascii.eqb_spec c " ") as [->|_]; [contradiction|reflexivity].
Qed.

(** Server configuration panics exactly on the command texts that have no
    space in them: with a space, the token list has a second element, and a
    text the URL pattern matches always has a first match with its group,
    so every later index is in range. *)
Theorem configureServer_panics_iff_no_space (s : SlashCommandHandlers) (r : Request)
    (st : St E) :
  (exists msg st', configureServer E s r st = Panic msg st') <->
  no_space (PostFormValue r "text").
Proof.
  split.
  - intros (msg & st' & Hpanic).
    destruct (forallb (fun c => negb (Ascii.eqb c " "))
                (list_ascii_of_string (PostFormValue r "text"))) eqn:Hsp;
      [exact Hsp|].
    exfalso.
    assert (Hno : ~ no_space (PostFormValue r "text"))
      by (unfold no_space; rewrite Hsp; discriminate).
    destruct (split_go_space _ "" Hno) as (x & y & l & Hsplit).
    revert Hpanic. unfold configureServer, strings_Split. rewrite Hsplit.
    mstep. cbn [lookup list_lookup world resp trace].
    destruct (String.eqb y "default"); cbn [world resp trace].
    + destruct (ServerConfigWriter_Remove E _ (world st)) as [[err|] w'];
        discriminate.
    + unfold Regexp.MatchString, Regexp.FindAllStringSubmatch.
      cbn [Regexp.anchored serverConfigRE].
      destruct (Regexp.matchAt _ (PostFormValue r "text")) as [m|];
        cbn [Regexp.found negb map lookup list_lookup world resp trace]; [|discriminate].
      destruct (ServerConfigWriter_Store E _ (world st)) as [[err|] w'];
        discriminate.
  - intros Hs. eexists _, _. exact (configureServer_panics_without_space E s r st Hs).
Qed.

(** When the second token of the text is [default], whatever follows it,
    the override of the calling workspace is removed and nothing is stored:
    on success the answer is the plain confirmation with status 200, and
    when the store fails the error is logged and the status is 500 with no
    body. *)
Theorem configureServer_default (s : SlashCommandHandlers) (r : Request) (st : St E)
    (first : string) (others : list string) :
  strings_Split (PostFormValue r "text") " " = first :: "default" :: others ->
  configureServer E s r st =
    match ServerConfigWriter_Remove E (PostFormValue r "team_id") (world st) with
    | (None, w') =>
        Ret tt {| world := w';
                  resp := write "Your team's conferences will now be hosted on https://meet.jit.si"
                            (writeHeader StatusOK (resp st));
                  trace := trace st ++ [EvServerConfigRemove (PostFormValue r "team_id")] |}
    | (Some err, w') =>
        Ret tt {| world := w';
                  resp := writeHeader StatusInternalServerError (resp st);
                  trace := trace st ++ [EvServerConfigRemove (PostFormValue r "team_id");
                                        EvLogError err "defaulting server"] |}
    end.
Proof.
  intros Hsplit. unfold configureServer. rewrite Hsplit. mstep.
  cbn [lookup list_lookup String.eqb Ascii.eqb Bool.eqb world resp trace].
  destruct (ServerConfigWriter_Remove E _ (world st)) as [[err|] w'];
    cbn [world resp trace]; [rewrite <- app_assoc|]; reflexivity.
Qed.

End ConfigureServerTotal.

(** A URL after [default] is ignored: the command resets the host. *)
Lemma configureServer_default_witness :
  configureServer scripted handlers
    (command "T1" "acme" "U1" "server default <https://other.example>")
    (initial scripted tt)
  = Ret tt (Build_St scripted tt
              (write "Your team's conferences will now be hosted on https://meet.jit.si"
                 (writeHeader StatusOK emptyResponse))
              [EvServerConfigRemove "T1"]).
Proof.
  exact (configureServer_default scripted handlers
           (command "T1" "acme" "U1" "server default <https://other.example>")
           (initial scripted tt) "server" ["<https://other.example>"] eq_refl).
Defined.

Section ConfigureServerStore.

Variable E : Env.

Fixpoint allNonSpace (s : string) : bool :=
  match s with
  | String c s' => negb (Regexp.is_space c) && allNonSpace s'
  | EmptyString => true
  end.

(** The text ends here, or goes on with white space. *)
Definition endsToken (rest : string) : bool :=
  match rest with
  | String c _ => Regexp.is_space c
  | EmptyString => true
  end.

(** [\S+>] at the end of the group: the greedy run backs off by the one
    closing bracket. *)
Lemma run_host (h rest w acc : string) :
  h <> "" -> allNonSpace h = true -> endsToken rest = true ->
  Regexp.run [Regexp.Plus Regexp.NonSpace; Regexp.One (Regexp.Lit ">"%char);
              Regexp.GroupClose]
    (h +:+ String ">" rest) w (Regexp.Capturing acc)
  = Some (Regexp.Submatch (w +:+ h +:+ ">") (acc +:+ h +:+ ">") rest).
Proof.
  intros Hne Hh Hrest. revert w acc.
  induction h as [|c h IH]; [contradiction|]. intros w acc.
  cbn [allNonSpace] in Hh. apply andb_prop in Hh as [Hc Hh].
  change (String c h +:+ String ">" rest) with (String c (h +:+ String ">" rest)).
  rewrite run_plus_cons. cbn [Regexp.atom_ok Regexp.push]. rewrite Hc.
  destruct h as [|d h].
  - change ("" +:+ String ">" rest) with (String ">" rest).
    rewrite run_plus_cons.
    assert (Hinner : Regexp.run [Regexp.Plus Regexp.NonSpace;
                                 Regexp.One (Regexp.Lit ">"%char); Regexp.GroupClose]
                       rest (Regexp.snoc (Regexp.snoc w c) ">")
                       (Regexp.push (Regexp.Capturing (Regexp.snoc acc c)) ">") = None).
    { destruct rest as [|e rest]; [reflexivity|].
      rewrite run_plus_cons. cbn [Regexp.atom_ok endsToken] in *. now rewrite Hrest. }
    rewrite Hinner.
    assert (Hclose : Regexp.run [Regexp.One (Regexp.Lit ">"%char); Regexp.GroupClose]
                       rest (Regexp.snoc (Regexp.snoc w c) ">")
                       (Regexp.push (Regexp.Capturing (Regexp.snoc acc c)) ">") = None).
    { destruct rest as [|e rest]; [reflexivity|].
      cbn [Regexp.run Regexp.atom_ok endsToken] in *. unfold Regexp.eqb_ascii.
      destruct (Ascii.eqb_spec ">" e) as [<-|_]; [discriminate Hrest|reflexivity]. }
    rewrite Hclose.
    cbn [Regexp.atom_ok]. change (Regexp.is_space ">"%char) with false.
    cbn [negb Regexp.run Regexp.atom_ok Regexp.eqb_ascii Ascii.eqb Bool.eqb
         Regexp.push Regexp.close Regexp.group_text].
    unfold Regexp.snoc. rewrite !string_append_assoc. reflexivity.
  - rewrite (IH ltac:(discriminate) Hh). rewrite !append_snoc. reflexivity.
Qed.

(** Literal items consume their text, outside and inside the group. *)
Lemma run_lits_unopened (p : string) (r : list Regexp.item) (t w : string) :
  Regexp.run (lits p ++ r) (p +:+ t) w Regexp.Unopened
  = Regexp.run r t (w +:+ p) Regexp.Unopened.
Proof.
  revert w. induction p as [|c p IH]; intros w.
  - now rewrite append_empty_r.
  - change (String c p +:+ t) with (String c (p +:+ t)).
    cbn [lits app Regexp.run Regexp.atom_ok Regexp.push]. unfold Regexp.eqb_ascii.
    rewrite Ascii.eqb_refl, IH, append_snoc. reflexivity.
Qed.

Lemma run_lits_capturing (p : string) (r : list Regexp.item) (t w acc : string) :
  Regexp.run (lits p ++ r) (p +:+ t) w (Regexp.Capturing acc)
  = Regexp.run r t (w +:+ p) (Regexp.Capturing (acc +:+ p)).
Proof.
  revert w acc. induction p as [|c p IH]; intros w acc.
  - now rewrite !append_empty_r.
  - change (String c p +:+ t) with (String c (p +:+ t)).
    cbn [lits app Regexp.run Regexp.atom_ok Regexp.push]. unfold Regexp.eqb_ascii.
    rewrite Ascii.eqb_refl, IH, !append_snoc. reflexivity.
Qed.

(** The command that sets the host: [server <http://HOST>] or
    [server <https://HOST>], then [rest]. *)
Definition scheme (secure : bool) : string := if secure then "https" else "http".

Definition serverCommand (secure : bool) (host rest : string) : string :=
  "server <" +:+ scheme secure +:+ "://" +:+ host +:+ ">" +:+ rest.

Lemma matchAt_serverCommand (secure : bool) (h rest : string) :
  h <> "" -> allNonSpace h = true -> endsToken rest = true ->
  Regexp.matchAt serverConfigRE (serverCommand secure h rest)
  = Some (Regexp.Submatch ("server <" +:+ scheme secure +:+ "://" +:+ h +:+ ">")
            ("<" +:+ scheme secure +:+ "://" +:+ h +:+ ">") rest).
Proof.
  intros Hne Hh Hrest.
  unfold Regexp.matchAt, serverConfigRE. cbn [Regexp.items].
  assert (Htail : forall w acc,
            Regexp.run (lits "://" ++ [Regexp.Plus Regexp.NonSpace;
                                       Regexp.One (Regexp.Lit ">"%char); Regexp.GroupClose])
              ("://" +:+ (h +:+ String ">" rest)) w (Regexp.Capturing acc)
            = Some (Regexp.Submatch (w +:+ "://" +:+ h +:+ ">")
                      (acc +:+ "://" +:+ h +:+ ">") rest)).
  { intros w acc. rewrite run_lits_capturing, (run_host h rest _ _ Hne Hh Hrest).
    rewrite !string_append_assoc. reflexivity. }
  assert (Hspace : forall t w,
            Regexp.run (Regexp.Plus Regexp.Space ::
                        Regexp.GroupOpen :: lits "<http" ++ t)
              (String " " ("<http" +:+ w)) "server" Regexp.Unopened
            = Regexp.run t w "server <http" (Regexp.Capturing "<http")).
  { intros t w. rewrite run_plus_cons.
    change (Regexp.atom_ok Regexp.Space " "%char) with true. cbn iota.
    change (Regexp.run (Regexp.Plus Regexp.Space :: Regexp.GroupOpen :: lits "<http" ++ t)
              ("<http" +:+ w) (Regexp.snoc "server" " ")
              (Regexp.push Regexp.Unopened " "))
      with (@None Regexp.submatch).
    cbn [Regexp.push]. cbn [Regexp.run]. rewrite run_lits_capturing. reflexivity. }
  destruct secure; cbn [scheme].
  - change (serverCommand true h rest)
      with ("server" +:+ String " " ("<http" +:+
              String "s" ("://" +:+ (h +:+ String ">" rest)))).
    rewrite run_lits_unopened. cbn [app].
    change ("" +:+ "server") with "server". rewrite Hspace.
    cbn [app Regexp.run Regexp.atom_ok Regexp.eqb_ascii Ascii.eqb Bool.eqb Regexp.push].
    rewrite Htail. reflexivity.
  - change (serverCommand false h rest)
      with ("server" +:+ String " " ("<http" +:+
              String ":" ("//" +:+ (h +:+ String ">" rest)))).
    rewrite run_lits_unopened. cbn [app].
    change ("" +:+ "server") with "server". rewrite Hspace.
    cbn [app Regexp.run Regexp.atom_ok Regexp.eqb_ascii Ascii.eqb Bool.eqb].
    change (String ":" ("//" +:+ (h +:+ String ">" rest)))
      with ("://" +:+ (h +:+ String ">" rest)).
    rewrite Htail. reflexivity.
Qed.

Lemma trim_right_bracket (s : string) :
  trim_right "<>" (s +:+ ">") = trim_right "<>" s.
Proof.
  induction s as [|x s IH]; [reflexivity|].
  change (String x s +:+ ">") with (String x (s +:+ ">")).
  cbn [trim_right]. now rewrite IH.
Qed.

Lemma trim_right_clean (cutset a : string) (c : ascii) :
  in_cutset cutset c = false ->
  trim_right cutset (a +:+ String c "") = a +:+ String c "".
Proof.
  intros Hc. induction a as [|x a IH].
  - change ("" +:+ String c "") with (String c ""). cbn [trim_right]. now rewrite Hc.
  - change (String x a +:+ String c "") with (String x (a +:+ String c "")).
    cbn [trim_right]. rewrite IH. destruct a; reflexivity.
Qed.

(** The first token of a split starts with what has been read of it. *)
Lemma split_go_head (s cur : string) :
  exists x l, split_go " " 0 s cur = (cur +:+ x) :: l.
Proof.
  revert cur. induction s as [|c s IH]; intros cur; cbn [split_go].
  - exists "", []. now rewrite append_empty_r.
  - destruct (String.prefix " " (String c s)).
    + exists "", (split_go " " (String.length " " - 1) s ""). now rewrite append_empty_r.
    + destruct (IH (Regexp.snoc cur c)) as (x & l & ->).
      exists (String c x), l. now rewrite append_snoc.
Qed.

(** For the command [server <http://HOST>] or [server <https://HOST>],
    where HOST has no white space and does not end with an angle bracket,
    and the text ends or goes on with white space after [>], server
    configuration stores exactly the URL between the angle brackets for the
    calling workspace, and nothing else: on success it confirms the new host
    with status 200, and when the store fails it logs the error and answers
    500. *)
Theorem configureServer_stores_host (s : SlashCommandHandlers) (r : Request) (st : St E)
    (secure : bool) (h0 : string) (c : ascii) (rest : string) :
  let host := h0 +:+ String c "" in
  let url := scheme secure +:+ "://" +:+ host in
  let d := {| cfgTeamID := PostFormValue r "team_id"; cfgServer := url |} in
  PostFormValue r "text" = serverCommand secure host rest ->
  allNonSpace host = true ->
  in_cutset "<>" c = false ->
  endsToken rest = true ->
  configureServer E s r st =
    match ServerConfigWriter_Store E d (world st) with
    | (None, w') =>
        Ret tt {| world := w';
                  resp := jsonOK (Sprintf "Your team's conferences will now be hosted on %s
Run `/jitsi server default` if you'd like to continue using https://meet.jit.si" [url])
                            (resp st);
                  trace := trace st ++ [EvServerConfigStore d] |}
    | (Some err, w') =>
        Ret tt {| world := w';
                  resp := writeHeader StatusInternalServerError (resp st);
                  trace := trace st ++ [EvServerConfigStore d;
                                        EvLogError err "configuring server"] |}
    end.
Proof.
  intros host url d Htext Hhost Hc Hrest.
  assert (Hne : host <> "") by (unfold host; destruct h0; discriminate).
  assert (Hsplit : exists x l,
            strings_Split (serverCommand secure host rest) " "
            = "server" :: String "<" x :: l).
  { unfold strings_Split.
    destruct (split_go_head (scheme secure +:+ "://" +:+ host +:+ ">" +:+ rest) "<")
      as (x & l & Hx).
    exists x, l.
    transitivity ("server" ::
                  split_go " " 0 (scheme secure +:+ "://" +:+ host +:+ ">" +:+ rest) "<");
      [destruct secure; reflexivity|now rewrite Hx]. }
  destruct Hsplit as (x & l & Hsplit).
  assert (Htrim : strings_Trim ("<" +:+ scheme secure +:+ "://" +:+ host +:+ ">") "<>" = url).
  { unfold strings_Trim.
    assert (Hleft : trim_left "<>" ("<" +:+ scheme secure +:+ "://" +:+ host +:+ ">")
                    = (scheme secure +:+ "://" +:+ h0) +:+ String c "" +:+ ">").
    { unfold host. rewrite !string_append_assoc. destruct secure; reflexivity. }
    rewrite Hleft, <- string_append_assoc, trim_right_bracket, (trim_right_clean _ _ _ Hc).
    unfold url, host. rewrite !string_append_assoc. reflexivity. }
  unfold configureServer. rewrite Htext, Hsplit. mstep.
  cbn [lookup list_lookup String.eqb Ascii.eqb Bool.eqb world resp trace].
  unfold Regexp.MatchString, Regexp.FindAllStringSubmatch.
  cbn [Regexp.anchored serverConfigRE].
  fold serverConfigRE.
  rewrite (matchAt_serverCommand secure host rest Hne Hhost Hrest).
  cbn [Regexp.found negb map lookup list_lookup Regexp.whole Regexp.group1
       world resp trace].
  rewrite Htrim. fold d.
  destruct (ServerConfigWriter_Store E d (world st)) as [[err|] w'];
    cbn [world resp trace]; [rewrite <- app_assoc|]; reflexivity.
Qed.

End ConfigureServerStore.

Lemma configureServer_stores_host_witness :
  configureServer scripted handlers
    (command "T1" "acme" "U1" "server <https://meet.example.org/> please")
    (initial scripted tt)
  = Ret tt (Build_St scripted tt
              (jsonOK (Sprintf "Your team's conferences will now be hosted on %s
Run `/jitsi server default` if you'd like to continue using https://meet.jit.si"
                         ["https://meet.example.org/"])
                 emptyResponse)
              [EvServerConfigStore
                 {| cfgTeamID := "T1"; cfgServer := "https://meet.example.org/" |}]).
Proof.
  exact (configureServer_stores_host scripted handlers
           (command "T1" "acme" "U1" "server <https://meet.example.org/> please")
           (initial scripted tt) true "meet.example.org" "/" " please"
           eq_refl eq_refl eq_refl eq_refl).
Defined.

(** [server not-a-url]: the instruction, and no store is touched. *)
Lemma configureServer_instruction_witness :
  configureServer scripted handlers (command "T1" "acme" "U1" "server not-a-url")
    (initial scripted tt)
  = Ret tt (Build_St scripted tt
              (jsonOK "A proper conference host must be provided." emptyResponse) []).
Proof.
  exact (configureServer_instruction scripted handlers
           (command "T1" "acme" "U1" "server not-a-url") (initial scripted tt)
           "server" "not-a-url" [] eq_refl ltac:(discriminate) eq_refl).
Defined.

Section DispatchErrors.

Variable E : Env.

(** When the workspace's configuration cannot be read, invite dispatch logs
    the error and answers 500 with no body, whatever the command text: the
    room name has been drawn and the configuration asked for, and nothing
    else happened (no token lookup, no call to Slack). *)
Theorem dispatch_config_unreadable (s : SlashCommandHandlers) (r : Request) (st : St E)
    (room : string) (err : error) (w1 w2 : W E) :
  RandomName E (world st) = (room, w1) ->
  ServerConfigReader_Get E (PostFormValue r "team_id") w1 = (inr err, w2) ->
  dispatchInvites E s r st =
    Ret tt {| world := w2;
              resp := writeHeader StatusInternalServerError (resp st);
              trace := trace st ++ [EvRandomName;
                                    EvServerConfigGet (PostFormValue r "team_id");
                                    EvLogError err "generating meeting"] |}.
Proof.
  intros Hname Hcfg. unfold dispatchInvites, MeetingGenerator_New. mstep.
  cbn [world resp trace]. rewrite Hname. cbn [world resp trace]. rewrite Hcfg.
  cbn [world resp trace]. rewrite <- !app_assoc. reflexivity.
Qed.

(** With somebody mentioned and a readable configuration, a token store
    that has no credential for the workspace ([not_authed]) gets the caller
    the install prompt, and any other token-store error is logged and
    answered with 500; in both cases no user is looked up, no conversation
    is opened and no message is posted. *)
Theorem dispatch_without_token (s : SlashCommandHandlers) (r : Request) (st : St E)
    (room : string) (srv : ServerCfg) (err : error) (w1 w2 w3 : W E) :
  mentionedIDs (PostFormValue r "text") <> [] ->
  RandomName E (world st) = (room, w1) ->
  ServerConfigReader_Get E (PostFormValue r "team_id") w1 = (inl srv, w2) ->
  GetFirstBotTokenForTeam E (PostFormValue r "team_id") w2 = (inr err, w3) ->
  let asked := trace st ++ [EvRandomName;
                            EvServerConfigGet (PostFormValue r "team_id");
                            EvGetFirstBotTokenForTeam (PostFormValue r "team_id")] in
  dispatchInvites E s r st =
    if String.eqb err errMissingAuthToken then
      Ret tt {| world := w3;
                resp := jsonOK (Sprintf installMessage [SharableURL s]) (resp st);
                trace := asked |}
    else
      Ret tt {| world := w3;
                resp := writeHeader StatusInternalServerError (resp st);
                trace := asked ++ [EvLogError err "retrieving token"] |}.
Proof.
  intros Hsome Hname Hcfg Htoken asked.
  destruct (New_readable E (PostFormValue r "team_id") (PostFormValue r "team_domain")
              room srv st w1 w2 Hname Hcfg) as (mtg & Hnew & _).
  unfold dispatchInvites. unfold bind at 1. rewrite Hnew.
  unfold mentionedIDs in Hsome.
  destruct (Regexp.FindAllStringSubmatch atMentionRE (PostFormValue r "text"))
    as [|m ms]; [contradiction|].
  unfold generated. mstep. cbn [world resp trace]. rewrite Htoken.
  cbn [world resp trace]. unfold asked.
  destruct (String.eqb err errMissingAuthToken).
  - unfold install. mstep. cbn [world resp trace].
    rewrite <- !app_assoc. reflexivity.
  - mstep. cbn [world resp trace]. rewrite <- !app_assoc. reflexivity.
Qed.

End DispatchErrors.

Lemma dispatch_config_unreadable_witness :
  dispatchInvites scripted handlers (command "TDOWN" "acme" "U1" "<@U2>")
    (initial scripted tt)
  = Ret tt (Build_St scripted tt
              (writeHeader StatusInternalServerError emptyResponse)
              [EvRandomName; EvServerConfigGet "TDOWN";
               EvLogError "config store unreachable" "generating meeting"]).
Proof.
  exact (dispatch_config_unreadable scripted handlers
           (command "TDOWN" "acme" "U1" "<@U2>") (initial scripted tt)
           "QuietFoxesRunFast" "config store unreachable" tt tt eq_refl eq_refl).
Defined.

(** The workspace [TNEW] has not installed the app. *)
Lemma dispatch_without_token_witness :
  dispatchInvites scripted handlers (command "TNEW" "acme" "U1" "<@U2> <@U3>")
    (initial scripted tt)
  = Ret tt (Build_St scripted tt
              (jsonOK (Sprintf installMessage ["https://install.example"]) emptyResponse)
              [EvRandomName; EvServerConfigGet "TNEW"; EvGetFirstBotTokenForTeam "TNEW"]).
Proof.
  exact (dispatch_without_token scripted handlers
           (command "TNEW" "acme" "U1" "<@U2> <@U3>") (initial scripted tt)
           "QuietFoxesRunFast"
           {| Server := "https://meet.jit.si"; TenantScopedURLs := false;
              AuthenticatedURLSupport := false |}
           errMissingAuthToken tt tt tt ltac:(discriminate) eq_refl eq_refl eq_refl).
Defined.

Section Responds.

Variable E : Env.

(** The user IDs that were looked up, in order. *)
Fixpoint lookups (evs : list Event) : list string :=
  match evs with
  | EvGetUserInfo _ userID :: evs' => userID :: lookups evs'
  | _ :: evs' => lookups evs'
  | [] => []
  end.

Lemma lookups_app (a b : list Event) : lookups (a ++ b) = lookups a ++ lookups b.
Proof.
  induction a as [|ev a IH]; [reflexivity|].
  destruct ev; cbn [app lookups]; rewrite IH; reflexivity.
Qed.

(** A capability that always returns, writes nothing on the response and
    looks no user up: all it may do is call the signer. *)
Definition signsOnly (mtg : Meeting E) : Prop :=
  forall (userID userName avatarURL : string) (st : St E),
    exists res st',
      AuthenticatedURL mtg userID userName avatarURL st = Ret res st' /\
      resp st' = resp st /\
      lookups (trace st') = lookups (trace st).

(** The meetings [MeetingGenerator.New] returns without error have such a
    capability. *)
Lemma New_signsOnly (teamID teamName : string) (mtg : Meeting E) (st st' : St E) :
  MeetingGenerator_New E teamID teamName st = Ret (mtg, None) st' ->
  signsOnly mtg.
Proof.
  unfold MeetingGenerator_New. mstep. cbn [world resp trace].
  destruct (RandomName E (world st)) as [room w1]. cbn [world resp trace].
  destruct (ServerConfigReader_Get E teamID w1) as [[srv|err] w2];
    cbn [world resp trace]; [|discriminate].
  intros Hnew. injection Hnew as <- _.
  intros userID userName avatarURL st0. cbn [AuthenticatedURL].
  destruct (AuthenticatedURLSupport srv).
  - mstep. cbn [world resp trace].
    destruct (CreateJWT E _ (world st0)) as [[jwt|err] w'];
      eexists _, _; (split; [reflexivity|]); cbn [world resp trace];
      (split; [reflexivity|]); rewrite lookups_app, app_nil_r; reflexivity.
  - eexists _, _. split; [reflexivity|]. split; reflexivity.
Qed.

Variable s : SlashCommandHandlers.
Variables token callerID : string.
Variable meeting : Meeting E.
Hypothesis Hmeeting : signsOnly meeting.

(** An invite always returns, writes nothing on the response, and looks up
    exactly its recipient. *)
Lemma sendPersonalizedInvite_returns (userID : string) (st : St E) :
  exists err st',
    sendPersonalizedInvite E token callerID userID meeting st = Ret err st' /\
    resp st' = resp st /\
    lookups (trace st') = lookups (trace st) ++ [userID].
Proof.
  unfold sendPersonalizedInvite. mstep. cbn [world resp trace].
  assert (Hlook : lookups (trace st ++ [EvGetUserInfo token userID])
                  = lookups (trace st) ++ [userID])
    by (now rewrite lookups_app).
  destruct (GetUserInfo E token userID (world st)) as [[u|err] w1];
    cbn [world resp trace].
  2:{ eexists _, _. split; [reflexivity|]. split; [reflexivity|]. exact Hlook. }
  match goal with
  | |- context [AuthenticatedURL meeting ?a ?b ?c ?st0] =>
      destruct (Hmeeting a b c st0) as ([url [err|]] & st1 & -> & Hresp & Htrace)
  end; cbn [world resp trace] in *.
  { eexists _, _. split; [reflexivity|]. split; [exact Hresp|].
    rewrite Htrace. exact Hlook. }
  destruct (OpenConversation E token [userID] (world st1)) as [[ch|err] w2];
    cbn [world resp trace].
  { destruct (PostMessage E token ch "" _ w2) as [res w3].
    eexists _, _. split; [reflexivity|]. cbn [world resp trace].
    split; [exact Hresp|].
    rewrite !lookups_app, Htrace. cbn [lookups]. rewrite !app_nil_r. exact Hlook. }
  eexists _, _. split; [reflexivity|]. cbn [world resp trace].
  split; [exact Hresp|].
  rewrite lookups_app, Htrace. cbn [lookups]. rewrite app_nil_r. exact Hlook.
Qed.

(** The identifiers the loop reads off the matches. *)
Definition recipients (matches : list (list string)) : list string :=
  map (fun m => nth 1 m "") matches.

Lemma inviteLoop_outcome (matches : list (list string)) (st : St E) :
  Forall (fun m => length m = 2) matches ->
  exists returned st',
    inviteLoop E s token callerID meeting matches st = Ret returned st' /\
    (returned = false ->
       resp st' = resp st /\
       lookups (trace st') = lookups (trace st) ++ recipients matches) /\
    (returned = true ->
       resp st' = jsonOK (Sprintf installMessage [SharableURL s]) (resp st) /\
       exists k, k < length matches /\
         lookups (trace st') = lookups (trace st) ++ recipients (firstn (S k) matches)).
Proof.
  intros Hshape. revert st. induction Hshape as [|m matches Hm _ IH]; intros st.
  - exists false, st. split; [reflexivity|]. split; [|discriminate].
    intros _. split; [reflexivity|]. now rewrite app_nil_r.
  - destruct m as [|whole [|userID [|x m]]]; try discriminate Hm.
    rewrite inviteLoop_cons.
    destruct (sendPersonalizedInvite_returns userID st)
      as (err & st1 & -> & Hresp & Htrace).
    assert (Hrest : forall st2 : St E,
              resp st2 = resp st ->
              lookups (trace st2) = lookups (trace st) ++ [userID] ->
              exists returned st',
                inviteLoop E s token callerID meeting matches st2 = Ret returned st' /\
                (returned = false ->
                   resp st' = resp st /\
                   lookups (trace st')
                     = lookups (trace st) ++ recipients ([whole; userID] :: matches)) /\
                (returned = true ->
                   resp st' = jsonOK (Sprintf installMessage [SharableURL s]) (resp st) /\
                   exists k, k < length ([whole; userID] :: matches) /\
                     lookups (trace st')
                       = lookups (trace st)
                         ++ recipients (firstn (S k) ([whole; userID] :: matches)))).
    { intros st2 Hresp2 Htrace2.
      destruct (IH st2) as (returned & st' & Hloop & Hdone & Haborted).
      exists returned, st'. split; [exact Hloop|]. split.
      - intros Hr. destruct (Hdone Hr) as [H1 H2]. split; [congruence|].
        rewrite H2, Htrace2, <- app_assoc. reflexivity.
      - intros Hr. destruct (Haborted Hr) as [H1 (k & Hk & H2)].
        split; [congruence|]. exists (S k). split; [cbn [length]; lia|].
        rewrite H2, Htrace2, <- app_assoc. reflexivity. }
    destruct err as [err|]; [|exact (Hrest st1 Hresp Htrace)].
    destruct (credentialError err).
    + exists true, (installed s st1). split; [reflexivity|]. split; [discriminate|].
      intros _. split; [cbn [installed resp]; now rewrite Hresp|].
      exists 0. split; [cbn [length]; lia|].
      cbn [installed trace firstn recipients map nth]. exact Htrace.
    + apply Hrest; [exact Hresp|].
      cbn [logged trace]. rewrite lookups_app. cbn [lookups].
      now rewrite app_nil_r.
Qed.


(** Composing the caller's response always returns with a JSON response
    written, status 200 on a fresh writer. *)
Lemma respondToCaller_returns (st : St E) :
  exists b st',
    respondToCaller E s token callerID meeting st = Ret tt st' /\
    resp st' = jsonOK b (resp st).
Proof.
  unfold respondToCaller, joinPersonalMeetingMsg. mstep. cbn [world resp trace].
  destruct (GetUserInfo E token callerID (world st)) as [[u|err] w1];
    cbn [world resp trace].
  - match goal with
    | |- context [AuthenticatedURL meeting ?a ?b ?c ?st0] =>
        destruct (Hmeeting a b c st0) as ([url [err|]] & st1 & -> & Hresp & _)
    end; cbn [world resp trace] in *.
    + destruct (credentialError err).
      * rewrite install_run. eexists _, _. split; [reflexivity|].
        cbn [installed resp]. now rewrite Hresp.
      * eexists _, _. split; [reflexivity|]. cbn [resp]. now rewrite Hresp.
    + eexists _, _. split; [reflexivity|]. cbn [resp]. now rewrite Hresp.
  - destruct (credentialError err).
    + rewrite install_run. eexists _, _. split; reflexivity.
    + eexists _, _. split; reflexivity.
Qed.

End Responds.

Section Safety.

Variable E : Env.

Lemma FindAllStringSubmatch_shape (re : Regexp.t) (text : string) :
  Forall (fun m => length m = 2) (Regexp.FindAllStringSubmatch re text).
Proof.
  unfold Regexp.FindAllStringSubmatch.
  match goal with
  | |- Forall _ (map _ ?ms) => generalize ms
  end.
  intros ms. induction ms as [|x ms IH]; constructor; [reflexivity|exact IH].
Qed.

Lemma New_returns (teamID teamName : string) (st : St E) :
  exists mtg err st1,
    MeetingGenerator_New E teamID teamName st = Ret (mtg, err) st1 /\
    resp st1 = resp st.
Proof.
  unfold MeetingGenerator_New. mstep. cbn [world resp trace].
  destruct (RandomName E (world st)) as [room w1]. cbn [world resp trace].
  destruct (ServerConfigReader_Get E teamID w1) as [[srv|err] w2];
    cbn [world resp trace]; eexists _, _, _; split; reflexivity.
Qed.

Lemma dispatchInvites_outcome (s : SlashCommandHandlers) (r : Request) (st : St E) :
  exists st',
    dispatchInvites E s r st = Ret tt st' /\
    (resp st' = writeHeader StatusInternalServerError (resp st) \/
     exists b, resp st' = jsonOK b (resp st)).
Proof.
  unfold dispatchInvites. unfold bind at 1.
  destruct (New_returns (PostFormValue r "team_id") (PostFormValue r "team_domain") st)
    as (mtg & err & st1 & Hnew & Hresp1).
  rewrite Hnew. destruct err as [err|].
  { mstep. eexists. split; [reflexivity|]. left. cbn [resp]. now rewrite Hresp1. }
  pose proof (New_signsOnly E _ _ mtg st st1 Hnew) as Hmtg.
  pose proof (FindAllStringSubmatch_shape atMentionRE (PostFormValue r "text")) as Hshape.
  destruct (Regexp.FindAllStringSubmatch atMentionRE (PostFormValue r "text"))
    as [|m ms] eqn:Hmatches.
  { mstep. eexists. split; [reflexivity|]. right. eexists. cbn [resp].
    rewrite Hresp1. reflexivity. }
  unfold bind at 1. unfold call at 1. mstep. cbn [world resp trace].
  destruct (GetFirstBotTokenForTeam E _ (world st1)) as [[token|err] w3];
    cbn [world resp trace].
  - unfold inviteAndRespond. unfold bind at 1.
    match goal with
    | |- context [inviteLoop E s token ?caller mtg (m :: ms) ?st0] =>
        destruct (inviteLoop_outcome E s token caller mtg Hmtg (m :: ms) st0 Hshape)
          as (returned & st2 & -> & Hdone & Haborted)
    end.
    destruct returned.
    + destruct (Haborted eq_refl) as [Hresp2 _]. exists st2. split; [reflexivity|].
      right. eexists. rewrite Hresp2. cbn [resp]. now rewrite Hresp1.
    + destruct (Hdone eq_refl) as [Hresp2 _].
      match goal with
      | |- context [respondToCaller E s token ?caller mtg st2] =>
          destruct (respondToCaller_returns E s token caller mtg Hmtg st2)
            as (b & st3 & -> & Hresp3)
      end.
      exists st3. split; [reflexivity|]. right. exists b.
      rewrite Hresp3, Hresp2. cbn [resp]. now rewrite Hresp1.
  - destruct (String.eqb err errMissingAuthToken).
    + rewrite install_run. eexists. split; [reflexivity|]. right. eexists.
      cbn [installed resp]. rewrite Hresp1. reflexivity.
    + mstep. eexists. split; [reflexivity|]. left. cbn [resp]. now rewrite Hresp1.
Qed.


End Safety.

Section Endpoint.

Variable E : Env.

(** A status written on a fresh response. *)
Definition answeredWith (code : nat) (w w' : ResponseWriter) : Prop :=
  status w = None -> status w' = Some code.

Lemma writeHeader_status (code : nat) (w : ResponseWriter) :
  answeredWith code w (writeHeader code w).
Proof. intros H. cbn. now rewrite H. Qed.

Lemma jsonOK_status (b : string) (w : ResponseWriter) :
  answeredWith 200 w (jsonOK b w).
Proof. intros H. cbn. now rewrite H. Qed.

Lemma handleRequestValidation_cases (r : Request) (secret : string) (st : St E) :
  exists ok st1,
    handleRequestValidation E r secret st = Ret ok st1 /\
    (ok = true -> resp st1 = resp st) /\
    (ok = false ->
       resp st1 = writeHeader StatusUnauthorized (resp st) \/
       resp st1 = writeHeader StatusInternalServerError (resp st)).
Proof.
  unfold handleRequestValidation.
  destruct (String.eqb (Values_Get (Header r) (RequestTimestampHeader E)) ""
            || String.eqb (Values_Get (Header r) (RequestSignatureHeader E)) "")%bool.
  { eexists false, _. split; [reflexivity|]. split; [discriminate|]. intros _. now left. }
  mstep. destruct (Body r) as [body|err].
  - destruct (ValidRequest E secret body _ _); cbn [negb].
    + eexists true, _. split; [reflexivity|]. split; [reflexivity|discriminate].
    + eexists false, _. split; [reflexivity|]. split; [discriminate|]. intros _. now left.
  - eexists false, _. split; [reflexivity|]. split; [discriminate|]. intros _. now right.
Qed.

Ltac fresh_status :=
  let Hf := fresh "Hf" in
  intros Hf; cbn [status writeHeader write jsonOK setHeader]; rewrite Hf; reflexivity.

Lemma configureServer_returns (s : SlashCommandHandlers) (r : Request) (st st' : St E) :
  configureServer E s r st = Ret tt st' ->
  answeredWith 200 (resp st) (resp st') \/ answeredWith 500 (resp st) (resp st').
Proof.
  unfold configureServer, answeredWith. mstep.
  destruct (strings_Split (PostFormValue r "text") " " !! 1) as [second|];
    [|discriminate].
  destruct (String.eqb second "default").
  - cbn [world resp trace].
    destruct (ServerConfigWriter_Remove E _ (world st)) as [[err|] w'];
      cbn [world resp trace]; intros H; injection H as <-; cbn [resp].
    + right. fresh_status.
    + left. fresh_status.
  - destruct (negb (Regexp.MatchString serverConfigRE (PostFormValue r "text"))).
    + intros H. injection H as <-. left. cbn [resp]. fresh_status.
    + destruct (Regexp.FindAllStringSubmatch serverConfigRE (PostFormValue r "text") !! 0)
        as [first|]; [|discriminate].
      destruct (first !! 1) as [host|]; [|discriminate].
      cbn [world resp trace].
      destruct (ServerConfigWriter_Store E _ (world st)) as [[err|] w'];
        cbn [world resp trace]; intros H; injection H as <-; cbn [resp].
      * right. fresh_status.
      * left. fresh_status.
Qed.

Lemma configureServer_returns_or (s : SlashCommandHandlers) (r : Request) (st : St E)
    (x y : string) (l : list string) :
  split_go " " 0 (PostFormValue r "text") "" = x :: y :: l ->
  exists st', configureServer E s r st = Ret tt st'.
Proof.
  intros Hsplit. unfold configureServer, strings_Split. rewrite Hsplit.
  mstep. cbn [lookup list_lookup world resp trace].
  destruct (String.eqb y "default"); cbn [world resp trace].
  - destruct (ServerConfigWriter_Remove E _ (world st)) as [[err|] w']; eauto.
  - unfold Regexp.MatchString, Regexp.FindAllStringSubmatch.
    cbn [Regexp.anchored serverConfigRE].
    destruct (Regexp.matchAt _ (PostFormValue r "text")) as [m|];
      cbn [Regexp.found negb map lookup list_lookup world resp trace]; [|eauto].
    destruct (ServerConfigWriter_Store E _ (world st)) as [[err|] w']; eauto.
Qed.

Lemma configureServer_panic_no_space (s : SlashCommandHandlers) (r : Request)
    (st st' : St E) (msg : string) :
  configureServer E s r st = Panic msg st' -> no_space (PostFormValue r "text").
Proof.
  intros Hpanic.
  destruct (forallb (fun c => negb (Ascii.eqb c " "))
              (list_ascii_of_string (PostFormValue r "text"))) eqn:Hsp;
    [exact Hsp|].
  exfalso.
  assert (Hno : ~ no_space (PostFormValue r "text"))
    by (unfold no_space; rewrite Hsp; discriminate).
  destruct (split_go_space _ "" Hno) as (x & y & l & Hsplit).
  destruct (configureServer_returns_or s r st x y l Hsplit) as (st2 & Hst2).
  congruence.
Qed.


End Endpoint.

Lemma scriptedMeeting_signsOnly : signsOnly scripted scriptedMeeting.
Proof.
  exact (New_signsOnly scripted "TAUTH" "Acme" scriptedMeeting (initial scripted tt)
           (generated scripted "TAUTH" tt (initial scripted tt)) eq_refl).
Defined.



Section Delivery.

Variable E : Env.

(** The invite posted for a recipient: one attachment, titled with the
    caller's mention and the meeting host, with one button that joins by
    [url]. *)
Definition inviteMessage (hostID host url : string) : PostMessageParameters :=
  let msg := Sprintf "<@%s> would like you to join a meeting on %s" [hostID; host] in
  {| Attachments :=
       [{| Fallback := msg; Title := msg; Color := "#3AA3E3";
           Actions := [{| actName := "join"; actText := "Join"; actType := "button";
                          actStyle := "primary"; actURL := url |}] |}] |}.

(** What a generated meeting's capability gives for a user, from the world
    [w]: the URL or the signer's error, the world after, and the events. *)
Definition resolveURL (teamID teamName room : string) (srv : ServerCfg) (u : UserInfo)
    (w : W E) : (string + error) * W E * list Event :=
  if AuthenticatedURLSupport srv then
    let i := claimsFor teamID teamName room (ID u) (Name u) (Image192 u) in
    match CreateJWT E i w with
    | (inl jwt, w') => (inl (baseURL E srv teamName room +:+ "?jwt=" +:+ jwt), w', [EvCreateJWT i])
    | (inr err, w') => (inr err, w', [EvCreateJWT i])
    end
  else (inl (baseURL E srv teamName room), w, []).

Lemma generated_capability (teamID teamName room : string) (srv : ServerCfg)
    (mtg : Meeting E) (st0 st0' : St E) (w1 w2 : W E) :
  RandomName E (world st0) = (room, w1) ->
  ServerConfigReader_Get E teamID w1 = (inl srv, w2) ->
  MeetingGenerator_New E teamID teamName st0 = Ret (mtg, None) st0' ->
  Host mtg = Server srv /\
  forall (u : UserInfo) (st : St E),
    AuthenticatedURL mtg (ID u) (Name u) (Image192 u) st =
      match resolveURL teamID teamName room srv u (world st) with
      | (inl url, w', evs) =>
          Ret (url, None) {| world := w'; resp := resp st; trace := trace st ++ evs |}
      | (inr err, w', evs) =>
          Ret ("", Some err) {| world := w'; resp := resp st; trace := trace st ++ evs |}
      end.
Proof.
  intros Hname Hcfg Hnew.
  destruct (New_readable E teamID teamName room srv st0 w1 w2 Hname Hcfg)
    as (mtg' & Hnew' & Hroom & Hhost & Hurl & Hcap).
  rewrite Hnew' in Hnew. injection Hnew as -> _. split; [exact Hhost|].
  intros u st. rewrite Hcap. unfold resolveURL, baseURL. rewrite Hurl.
  destruct (AuthenticatedURLSupport srv).
  - mstep. cbn [world resp trace]. unfold claimsFor.
    destruct (CreateJWT E _ (world st)) as [[jwt|err] w']; cbn [world resp trace];
      [|reflexivity].
    cbn [Sprintf]. rewrite append_empty_r. reflexivity.
  - unfold ret. destruct st. cbn [world resp trace]. rewrite app_nil_r. reflexivity.
Qed.

(** For a meeting generated from a readable configuration, an invite whose
    user lookup, URL and conversation all succeed posts exactly one message:
    to the conversation opened with that recipient alone, with the join URL
    resolved for the identity Slack returned for the recipient (signed for
    it when the server supports authenticated URLs), after the lookup, the
    signing and the opening, in that order; its result is what the post
    returned. *)
Theorem invite_delivers (teamID teamName room token hostID userID : string)
    (srv : ServerCfg) (mtg : Meeting E) (st0 st0' st : St E) (w1 w2 wu wj wc : W E)
    (u : UserInfo) (url channelID : string) (evs : list Event) :
  RandomName E (world st0) = (room, w1) ->
  ServerConfigReader_Get E teamID w1 = (inl srv, w2) ->
  MeetingGenerator_New E teamID teamName st0 = Ret (mtg, None) st0' ->
  GetUserInfo E token userID (world st) = (inl u, wu) ->
  resolveURL teamID teamName room srv u wu = (inl url, wj, evs) ->
  OpenConversation E token [userID] wj = (inl channelID, wc) ->
  let params := inviteMessage hostID (Server srv) url in
  sendPersonalizedInvite E token hostID userID mtg st =
    Ret (fst (PostMessage E token channelID "" params wc))
      {| world := snd (PostMessage E token channelID "" params wc);
         resp := resp st;
         trace := trace st ++ [EvGetUserInfo token userID] ++ evs
                    ++ [EvOpenConversation token [userID];
                        EvPostMessage token channelID params] |}.
Proof.
  intros Hname Hcfg Hnew Huser Hurl Hopen params.
  destruct (generated_capability teamID teamName room srv mtg st0 st0' w1 w2
              Hname Hcfg Hnew) as [Hhost Hcap].
  unfold sendPersonalizedInvite. unfold bind at 1. unfold call at 1. mstep.
  cbn [world resp trace]. rewrite Huser. cbn [world resp trace].
  rewrite Hcap. cbn [world resp trace]. rewrite Hurl. mstep. cbn [world resp trace].
  rewrite Hopen. cbn [world resp trace]. rewrite Hhost.
  subst params. unfold inviteMessage. cbv zeta.
  match goal with
  | |- context [PostMessage E token channelID "" ?p wc] =>
      generalize (PostMessage E token channelID "" p wc)
  end.
  intros [res w']. cbn [fst snd]. rewrite <- !app_assoc. reflexivity.
Qed.

(** The number of messages posted. *)
Fixpoint posts (evs : list Event) : nat :=
  match evs with
  | EvPostMessage _ _ _ :: evs' => S (posts evs')
  | _ :: evs' => posts evs'
  | [] => 0
  end.

Lemma posts_app (a b : list Event) : posts (a ++ b) = posts a + posts b.
Proof.
  induction a as [|ev a IH]; [reflexivity|].
  destruct ev; cbn [app posts]; rewrite IH; reflexivity.
Qed.

Lemma resolveURL_posts (teamID teamName room : string) (srv : ServerCfg) (u : UserInfo)
    (w : W E) : posts (snd (resolveURL teamID teamName room srv u w)) = 0.
Proof.
  unfold resolveURL. destruct (AuthenticatedURLSupport srv); [|reflexivity].
  destruct (CreateJWT E _ w) as [[jwt|err] w']; reflexivity.
Qed.


(** For a meeting generated from a readable configuration, when the caller
    can be looked up, the confirmation is the user template with the meeting
    host and the join URL resolved for the identity Slack returned for the
    caller; a signing failure is returned as the error with an empty body.
    Composing it only looks the caller up and resolves the URL: no
    conversation is opened and nothing is posted. *)
Theorem confirmation_for_caller (teamID teamName room token callerID : string)
    (srv : ServerCfg) (mtg : Meeting E) (st0 st0' st : St E) (w1 w2 wu : W E)
    (u : UserInfo) :
  RandomName E (world st0) = (room, w1) ->
  ServerConfigReader_Get E teamID w1 = (inl srv, w2) ->
  MeetingGenerator_New E teamID teamName st0 = Ret (mtg, None) st0' ->
  GetUserInfo E token callerID (world st) = (inl u, wu) ->
  joinPersonalMeetingMsg E token callerID mtg st =
    match resolveURL teamID teamName room srv u wu with
    | (inl url, w', evs) =>
        Ret (Sprintf userTemplate [Server srv; Server srv; url], None)
          {| world := w'; resp := resp st;
             trace := trace st ++ [EvGetUserInfo token callerID] ++ evs |}
    | (inr err, w', evs) =>
        Ret ("", Some err)
          {| world := w'; resp := resp st;
             trace := trace st ++ [EvGetUserInfo token callerID] ++ evs |}
    end.
Proof.
  intros Hname Hcfg Hnew Huser.
  destruct (generated_capability teamID teamName room srv mtg st0 st0' w1 w2
              Hname Hcfg Hnew) as [Hhost Hcap].
  unfold joinPersonalMeetingMsg. unfold bind at 1. unfold call at 1. mstep.
  cbn [world resp trace]. rewrite Huser. cbn [world resp trace].
  rewrite Hcap. cbn [world resp trace].
  destruct (resolveURL teamID teamName room srv u wu) as [[[url|err] wj] evs];
    mstep; rewrite <- ?app_assoc, ?Hhost; reflexivity.
Qed.

(** Whatever the meeting, when looking the caller up fails with a
    credential-invalidation code, the response to the caller is the install
    prompt, and nothing but that lookup has happened since. *)
Theorem caller_credential_error_installs (s : SlashCommandHandlers)
    (token callerID : string) (mtg : Meeting E) (st : St E) (err : error) (w' : W E) :
  GetUserInfo E token callerID (world st) = (inr err, w') ->
  credentialError err = true ->
  respondToCaller E s token callerID mtg st =
    Ret tt {| world := w';
              resp := jsonOK (Sprintf installMessage [SharableURL s]) (resp st);
              trace := trace st ++ [EvGetUserInfo token callerID] |}.
Proof.
  intros Huser Hcred.
  unfold respondToCaller, joinPersonalMeetingMsg. unfold bind at 1 2.
  unfold call at 1. mstep. cbn [world resp trace]. rewrite Huser.
  cbn [world resp trace]. rewrite Hcred. rewrite install_run. reflexivity.
Qed.

End Delivery.

Lemma scriptedMeeting_generated :
  MeetingGenerator_New scripted "TAUTH" "Acme" (initial scripted tt)
    = Ret (scriptedMeeting, None) (generated scripted "TAUTH" tt (initial scripted tt)).
Proof. reflexivity. Qed.

Lemma invite_delivers_witness :
  let url := "https://auth.example/acme/QuietFoxesRunFast?jwt=jwt-U1" in
  let params := inviteMessage "UCALLER" "https://auth.example" url in
  sendPersonalizedInvite scripted "xoxb-1" "UCALLER" "U1" scriptedMeeting
    (initial scripted tt)
  = Ret None
      (Build_St scripted tt emptyResponse
         [EvGetUserInfo "xoxb-1" "U1";
          EvCreateJWT (claimsFor "TAUTH" "Acme" "QuietFoxesRunFast" "U1" "name-U1" "");
          EvOpenConversation "xoxb-1" ["U1"];
          EvPostMessage "xoxb-1" "D-U1" params]).
Proof.
  intros url params.
  exact (invite_delivers scripted "TAUTH" "Acme" "QuietFoxesRunFast" "xoxb-1" "UCALLER"
           "U1"
           {| Server := "https://auth.example"; TenantScopedURLs := true;
              AuthenticatedURLSupport := true |}
           scriptedMeeting (initial scripted tt)
           (generated scripted "TAUTH" tt (initial scripted tt)) (initial scripted tt)
           tt tt tt tt tt
           {| ID := "U1"; Name := "name-U1"; Image192 := "" |}
           url "D-U1"
           [EvCreateJWT (claimsFor "TAUTH" "Acme" "QuietFoxesRunFast" "U1" "name-U1" "")]
           eq_refl eq_refl scriptedMeeting_generated eq_refl eq_refl eq_refl).
Defined.


Lemma confirmation_for_caller_witness :
  joinPersonalMeetingMsg scripted "xoxb-1" "UCALLER" scriptedMeeting (initial scripted tt)
  = Ret (Sprintf userTemplate
           ["https://auth.example"; "https://auth.example";
            "https://auth.example/acme/QuietFoxesRunFast?jwt=jwt-UCALLER"], None)
      (Build_St scripted tt emptyResponse
         [EvGetUserInfo "xoxb-1" "UCALLER";
          EvCreateJWT (claimsFor "TAUTH" "Acme" "QuietFoxesRunFast" "UCALLER"
                         "name-UCALLER" "")]).
Proof.
  exact (confirmation_for_caller scripted "TAUTH" "Acme" "QuietFoxesRunFast" "xoxb-1"
           "UCALLER"
           {| Server := "https://auth.example"; TenantScopedURLs := true;
              AuthenticatedURLSupport := true |}
           scriptedMeeting (initial scripted tt)
           (generated scripted "TAUTH" tt (initial scripted tt)) (initial scripted tt)
           tt tt tt {| ID := "UCALLER"; Name := "name-UCALLER"; Image192 := "" |}
           eq_refl eq_refl scriptedMeeting_generated eq_refl).
Defined.

(** The caller's credential has been revoked. *)
Lemma caller_credential_error_installs_witness :
  respondToCaller scripted handlers "xoxb-1" "UREVOKED" scriptedMeeting (initial scripted tt)
  = Ret tt (Build_St scripted tt
              (jsonOK (Sprintf installMessage ["https://install.example"]) emptyResponse)
              [EvGetUserInfo "xoxb-1" "UREVOKED"]).
Proof.
  exact (caller_credential_error_installs scripted handlers "xoxb-1" "UREVOKED"
           scriptedMeeting (initial scripted tt) errInvalidAuth tt eq_refl eq_refl).
Defined.

(** * OAuth callback ([SlackOAuthHandlers.Auth])

    The handler has no panicking step and its own collaborators (the query
    parser, the token endpoint, the JSON decoder, the token store and
    [http.Redirect]), so it is modelled by explicit state passing over a
    state of its own. *)

Module OAuth.

Record botToken : Type := {
  BotUserID : string;
  BotAccessToken : string
}.

Record accessResponse : Type := {
  OK : bool;
  AccessToken : string;
  Scope : string;
  UserID : string;
  TeamName : string;
  TeamID : string;
  Bot : botToken
}.

(** The record [Auth] writes to the token store:
    [TokenData{TeamID, UserID, BotToken, BotUserID, AccessToken}]. *)
Record TokenData : Type := {
  dataTeamID : string;
  dataUserID : string;
  dataBotToken : string;
  dataBotUserID : string;
  dataAccessToken : string
}.

Record Collaborators : Type := {
  World : Type;
  (** [url.ParseQuery(r.URL.RawQuery)] *)
  url_ParseQuery : string -> Values + error;
  (** [http.Get(url)]: the body of the response, or the error. *)
  http_Get : string -> World -> (string + error) * World;
  (** [json.NewDecoder(resp.Body).Decode(&access)] *)
  json_Decode : string -> accessResponse + error;
  TokenWriter_Store : TokenData -> World -> option error * World;
  (** [http.Redirect(w, r, url, code)] *)
  http_Redirect : string -> nat -> ResponseWriter -> ResponseWriter
}.

Record SlackOAuthHandlers : Type := {
  AccessURLTemplate : string;
  ClientID : string;
  ClientSecret : string;
  AppID : string
}.

(** What the handler does that can be observed.  [LogError] carries the
    error handed to [Err], which is nil in three of the log calls. *)
Inductive Event : Type :=
  | Get (url : string)
  | Store (d : TokenData)
  | LogError (err : option error) (msg : string).

Definition StatusFound : nat := 302.

Section Handler.

Variable C : Collaborators.

Record State : Type := {
  world : World C;
  resp : ResponseWriter;
  events : list Event
}.

(** A failure path: log, status 500, return. *)
Definition fail (err : option error) (msg : string) (w : World C) (evs : list Event)
    (st : State) : State :=
  {| world := w;
     resp := writeHeader StatusInternalServerError (resp st);
     events := events st ++ evs ++ [LogError err msg] |}.

Definition Auth (o : SlackOAuthHandlers) (rawQuery : string) (st : State) : State :=
  match url_ParseQuery C rawQuery with
  | inr err => fail (Some err) "parsing query params" (world st) [] st
  | inl params =>
      match params !! "error" with
      | Some _ => fail None "error response user declined install" (world st) [] st
      | None =>
          match default [] (params !! "code") with
          | [code0] =>
              let url := Sprintf (AccessURLTemplate o)
                           [ClientID o; ClientSecret o; code0] in
              match http_Get C url (world st) with
              | (inr err, w1) => fail (Some err) "oauth req error" w1 [Get url] st
              | (inl body, w1) =>
                  match json_Decode C body with
                  | inr err =>
                      fail (Some err) "unable to decode slack access response" w1
                        [Get url] st
                  | inl access =>
                      if negb (OK access) then fail None "access not ok" w1 [Get url] st
                      else
                        let d := {| dataTeamID := TeamID access;
                                    dataUserID := UserID access;
                                    dataBotToken := BotAccessToken (Bot access);
                                    dataBotUserID := BotUserID (Bot access);
                                    dataAccessToken := AccessToken access |} in
                        match TokenWriter_Store C d w1 with
                        | (Some err, w2) =>
                            fail (Some err) "unable to store token" w2 [Get url; Store d] st
                        | (None, w2) =>
                            let redirect :=
                              Sprintf "https://slack.com/app_redirect?app=%s" [AppID o] in
                            {| world := w2;
                               resp := http_Redirect C redirect StatusFound (resp st);
                               events := events st ++ [Get url; Store d] |}
                        end
                  end
              end
          | _ => fail None "code not provided" (world st) [] st
          end
      end
  end.

End Handler.

Arguments world {C} s.
Arguments resp {C} s.
Arguments events {C} s.

(** The URL of the token endpoint for a code. *)
Definition accessURL (o : SlackOAuthHandlers) (code0 : string) : string :=
  Sprintf (AccessURLTemplate o) [ClientID o; ClientSecret o; code0].

(** The record stored for a grant. *)
Definition grantData (access : accessResponse) : TokenData :=
  {| dataTeamID := TeamID access;
     dataUserID := UserID access;
     dataBotToken := BotAccessToken (Bot access);
     dataBotUserID := BotUserID (Bot access);
     dataAccessToken := AccessToken access |}.

Section Properties.

Variable C : Collaborators.

Ltac auth_cases o rawQuery st :=
  unfold Auth, fail;
  destruct (url_ParseQuery C rawQuery) as [params|err0] eqn:Hparse; cbn [events resp world];
  [destruct (params !! "error") as [declined|] eqn:Herror; cbn [events resp world];
   [|destruct (params !! "code") as [[|code0 [|code1 codes]]|] eqn:Hcode;
     cbn [default from_option id events resp world];
     [| destruct (http_Get C (Sprintf (AccessURLTemplate o)
                                [ClientID o; ClientSecret o; code0]) (world st))
          as [[body|err1] w1] eqn:Hget; cbn [events resp world];
        [destruct (json_Decode C body) as [access|err2] eqn:Hdecode;
         cbn [events resp world];
         [destruct (OK access) eqn:Hok; cbn [negb events resp world]; cbv zeta;
          fold (grantData access);
          [destruct (TokenWriter_Store C (grantData access) w1)
             as [[err3|] w2] eqn:Hstore;
           cbn [events resp world]| ]| ]| ]| | ]]| ].

(** The token endpoint is called only for a callback whose query parses,
    carries no [error] parameter and exactly one [code] value, and then with
    the access URL template filled with the client id, the client secret
    and that code. *)
Theorem Auth_exchange_guard (o : SlackOAuthHandlers) (rawQuery : string) (st : State C)
    (url : string) :
  In (Get url) (events (Auth C o rawQuery st)) ->
  In (Get url) (events st) \/
  exists params code0,
    url_ParseQuery C rawQuery = inl params /\
    params !! "error" = None /\
    params !! "code" = Some [code0] /\
    url = accessURL o code0.
Proof.
  auth_cases o rawQuery st; rewrite ?in_app_iff; cbn [In app];
    intros Hin; repeat (destruct Hin as [Hin|Hin]; try discriminate Hin);
    try (left; exact Hin); try contradiction;
    right; exists params, code0; injection Hin as <-; repeat split; assumption.
Qed.

(** A token record is stored only when the exchange was granted: the token
    endpoint answered the access URL for the one code, its body decoded, and
    the decoded response says [ok]; the record is then made of that
    response's team, user, bot and access-token fields. *)
Theorem Auth_stores_only_granted (o : SlackOAuthHandlers) (rawQuery : string)
    (st : State C) (d : TokenData) :
  In (Store d) (events (Auth C o rawQuery st)) ->
  In (Store d) (events st) \/
  exists params code0 body w1 access,
    url_ParseQuery C rawQuery = inl params /\
    params !! "error" = None /\
    params !! "code" = Some [code0] /\
    http_Get C (accessURL o code0) (world st) = (inl body, w1) /\
    json_Decode C body = inl access /\
    OK access = true /\
    d = grantData access.
Proof.
  auth_cases o rawQuery st; rewrite ?in_app_iff; cbn [In app];
    intros Hin; repeat (destruct Hin as [Hin|Hin]; try discriminate Hin);
    try (left; exact Hin); try contradiction;
    right; exists params, code0, body, w1, access; injection Hin as <-;
    repeat split; assumption.
Qed.

(** The callback is answered with status 500, or with the redirect to the
    app's page; and it is the redirect only when the grant was stored
    without error, that store being the last thing that happened. *)
Theorem Auth_redirects_after_store (o : SlackOAuthHandlers) (rawQuery : string)
    (st : State C) :
  (resp (Auth C o rawQuery st) = writeHeader StatusInternalServerError (resp st) /\
   exists evs err msg, events (Auth C o rawQuery st) = events st ++ evs ++ [LogError err msg])
  \/
  (resp (Auth C o rawQuery st)
     = http_Redirect C ("https://slack.com/app_redirect?app=" +:+ AppID o) StatusFound
         (resp st) /\
   exists code0 access w1,
     events (Auth C o rawQuery st)
       = events st ++ [Get (accessURL o code0); Store (grantData access)] /\
     OK access = true /\
     TokenWriter_Store C (grantData access) w1 = (None, world (Auth C o rawQuery st))).
Proof.
  auth_cases o rawQuery st;
    try (left; split; [reflexivity|]; eexists _, _, _; reflexivity).
  right. split.
  - cbn [Sprintf]. rewrite append_empty_r. reflexivity.
  - exists code0, access, w1. repeat split; assumption.
Qed.

End Properties.

(** A scripted installation: the query [code=abc] is exchanged for a
    grant. *)
Definition granted : accessResponse :=
  {| OK := true; AccessToken := "xoxp-1"; Scope := "commands,bot";
     UserID := "U1"; TeamName := "Acme"; TeamID := "T1";
     Bot := {| BotUserID := "B1"; BotAccessToken := "xoxb-1" |} |}.

Definition scriptedOAuth : Collaborators :=
  {| World := unit;
     url_ParseQuery := fun q =>
       if String.eqb q "code=abc" then inl {[ "code" := ["abc"] ]}
       else if String.eqb q "error=access_denied"
            then inl {[ "error" := ["access_denied"] ]}
            else inr "invalid semicolon separator in query";
     http_Get := fun _ w => (inl "{...}", w);
     json_Decode := fun _ => inl granted;
     TokenWriter_Store := fun _ w => (None, w);
     http_Redirect := fun url code w =>
       writeHeader code (setHeader "Location" url w) |}.

Definition app : SlackOAuthHandlers :=
  {| AccessURLTemplate := "https://slack.com/api/oauth.access?client_id=%s&client_secret=%s&code=%s";
     ClientID := "id"; ClientSecret := "secret"; AppID := "A1" |}.

Definition fresh : State scriptedOAuth := Build_State scriptedOAuth tt emptyResponse [].

Lemma Auth_exchange_guard_witness :
  let url := "https://slack.com/api/oauth.access?client_id=id&client_secret=secret&code=abc" in
  In (Get url) (events fresh) \/
  exists params code0,
    url_ParseQuery scriptedOAuth "code=abc" = inl params /\
    params !! "error" = None /\
    params !! "code" = Some [code0] /\
    url = accessURL app code0.
Proof.
  intros url.
  exact (Auth_exchange_guard scriptedOAuth app "code=abc" fresh url (or_introl eq_refl)).
Defined.

Lemma Auth_stores_only_granted_witness :
  In (Store (grantData granted)) (events fresh) \/
  exists params code0 body w1 access,
    url_ParseQuery scriptedOAuth "code=abc" = inl params /\
    params !! "error" = None /\
    params !! "code" = Some [code0] /\
    http_Get scriptedOAuth (accessURL app code0) (world fresh) = (inl body, w1) /\
    json_Decode scriptedOAuth body = inl access /\
    OK access = true /\
    grantData granted = grantData access.
Proof.
  exact (Auth_stores_only_granted scriptedOAuth app "code=abc" fresh (grantData granted)
           (or_intror (or_introl eq_refl))).
Defined.

End OAuth.
